(** * OTX pulse ETL connector: a shallow embedding of [etl_connector.py]

    The connector has three components, composed linearly:
    - the fetcher [fetch_with_retries] (one HTTP GET with bounded retry and
      exponential backoff),
    - the paginator [extract_pulses] (a generator driving the fetcher along
      the server's [next] cursor, at most [MAX_PAGES] pages),
    - the loader [load_pulses] (normalise each record with [transform_pulse]
      and upsert it into a MongoDB collection keyed by [_id]),
    and the driver [run_etl].

    Python values are embedded as the inductive type [pyval]; the network,
    the clock, the log and the database are threaded explicitly through a
    small state-and-exception monad [M]. *)

From Stdlib Require Import ZArith List Ascii String Bool Lia.
From Equations Require Import Equations.
Import ListNotations.
Open Scope string_scope.
Open Scope Z_scope.
Open Scope list_scope.

Set Warnings "-register-all".

(** ** Python values *)

(** The values [resp.json()] can produce.  JSON numbers are the integers;
    a [dict] is an association list in insertion order, read by its first
    binding for a key. *)
Inductive pyval : Type :=
| PNone
| PBool (b : bool)
| PInt (z : Z)
| PStr (s : string)
| PList (items : list pyval)
| PDict (fields : list (string * pyval)).

Definition dict := list (string * pyval).

(** Induction principle that reaches inside lists and dicts. *)
Section PyvalInd.
Variable P : pyval -> Prop.
Hypothesis HNone : P PNone.
Hypothesis HBool : forall b, P (PBool b).
Hypothesis HInt : forall z, P (PInt z).
Hypothesis HStr : forall s, P (PStr s).
Hypothesis HList : forall items, Forall P items -> P (PList items).
Hypothesis HDict :
  forall fields, Forall (fun kv => P (snd kv)) fields -> P (PDict fields).

Fixpoint pyval_ind' (v : pyval) : P v :=
  match v with
  | PNone => HNone
  | PBool b => HBool b
  | PInt z => HInt z
  | PStr s => HStr s
  | PList items =>
      HList items
        ((fix all (l : list pyval) : Forall P l :=
            match l with
            | [] => Forall_nil _
            | x :: l' => Forall_cons _ (pyval_ind' x) (all l')
            end) items)
  | PDict fields =>
      HDict fields
        ((fix all (l : dict) : Forall (fun kv => P (snd kv)) l :=
            match l with
            | [] => Forall_nil _
            | (k, x) :: l' =>
                Forall_cons (P := fun kv => P (snd kv)) (k, x)
                  (pyval_ind' x) (all l')
            end) fields)
  end.
End PyvalInd.

(** Structural equality, the way the store compares [_id] values. *)
Fixpoint pyval_eqb (a b : pyval) {struct a} : bool :=
  match a, b with
  | PNone, PNone => true
  | PBool x, PBool y => Bool.eqb x y
  | PInt x, PInt y => Z.eqb x y
  | PStr x, PStr y => String.eqb x y
  | PList xs, PList ys =>
      (fix go (xs ys : list pyval) {struct xs} : bool :=
         match xs, ys with
         | [], [] => true
         | x :: xs', y :: ys' => pyval_eqb x y && go xs' ys'
         | _, _ => false
         end) xs ys
  | PDict xs, PDict ys =>
      (fix go (xs ys : dict) {struct xs} : bool :=
         match xs, ys with
         | [], [] => true
         | (k, x) :: xs', (k', y) :: ys' =>
             String.eqb k k' && pyval_eqb x y && go xs' ys'
         | _, _ => false
         end) xs ys
  | _, _ => false
  end.

(** Python truthiness: [bool(v)]. *)
Definition truthy (v : pyval) : bool :=
  match v with
  | PNone => false
  | PBool b => b
  | PInt z => negb (z =? 0)
  | PStr s => negb (String.eqb s "")
  | PList items => match items with [] => false | _ :: _ => true end
  | PDict fields => match fields with [] => false | _ :: _ => true end
  end.

Definition is_list (v : pyval) : bool :=
  match v with PList _ => true | _ => false end.

(** ** Dictionaries *)

Fixpoint lookup (k : string) (d : dict) : option pyval :=
  match d with
  | [] => None
  | (k', v) :: d' => if String.eqb k k' then Some v else lookup k d'
  end.

(** [d.get(k, default)] *)
Definition dict_get (k : string) (default : pyval) (d : dict) : pyval :=
  match lookup k d with
  | Some v => v
  | None => default
  end.

(** [d[k] = v]: replace the binding in place, or append a new one. *)
Fixpoint set_field (k : string) (v : pyval) (d : dict) : dict :=
  match d with
  | [] => [(k, v)]
  | (k', v') :: d' =>
      if String.eqb k k' then (k, v) :: d' else (k', v') :: set_field k v d'
  end.

(** ** Exceptions and results *)

Inductive exn : Type :=
| ValueError       (* [time.sleep] of a negative duration *)
| AttributeError   (* [.get] on a value that is not a dict *)
| KeyError         (* subscript with a missing key *)
| OverflowError    (* a number too large for [time.sleep] or for BSON *)
| InvalidDocument  (* a key the BSON encoder refuses *)
| WriteError.      (* a write the server refuses *)

Inductive result (A : Type) : Type :=
| Ret (a : A)
| Raise (e : exn).
Arguments Ret {A} a.
Arguments Raise {A} e.

Definition rbind {A B} (r : result A) (k : A -> result B) : result B :=
  match r with
  | Ret a => k a
  | Raise e => Raise e
  end.

Notation "'let?' x ':=' r 'in' k" := (rbind r (fun x => k))
  (at level 10, x name, r at level 100, k at level 200).

(** [o.get(k, default)] on an arbitrary value: only a dict has [.get]. *)
Definition py_get (o : pyval) (k : string) (default : pyval) : result pyval :=
  match o with
  | PDict d => Ret (dict_get k default d)
  | _ => Raise AttributeError
  end.

(** [d[k]] *)
Definition py_getitem (d : dict) (k : string) : result pyval :=
  match lookup k d with
  | Some v => Ret v
  | None => Raise KeyError
  end.

(** ** The transform *)

Definition transform_pulse (pulse : pyval) : result dict :=
  let? id := py_get pulse "id" PNone in
  let? name := py_get pulse "name" PNone in
  let? description := py_get pulse "description" PNone in
  let? author_name := py_get pulse "author_name" PNone in
  let? created := py_get pulse "created" PNone in
  let? modified := py_get pulse "modified" PNone in
  let? tags := py_get pulse "tags" (PList []) in
  let? references := py_get pulse "references" (PList []) in
  Ret [ ("_id", id);
        ("name", name);
        ("description", description);
        ("author_name", author_name);
        ("created", created);
        ("modified", modified);
        ("tags", tags);
        ("references", references) ].

(** The transform applied to its own result. *)
Definition transform_twice (pulse : pyval) : result dict :=
  let? transformed := transform_pulse pulse in
  transform_pulse (PDict transformed).

(** The raw identifier of a record, [pulse.get("id")]. *)
Definition raw_id (pulse : pyval) : pyval :=
  match pulse with
  | PDict d => dict_get "id" PNone d
  | _ => PNone
  end.

Definition is_record (pulse : pyval) : bool :=
  match pulse with PDict _ => true | _ => false end.

(** The normalized document of a record. *)
Definition document (pulse : pyval) : dict :=
  match transform_pulse pulse with
  | Ret transformed => transformed
  | Raise _ => []
  end.

(** The output field of the normalized shape for each raw field. *)
Definition normalized_shape : list (string * string) :=
  [ ("_id", "id"); ("name", "name"); ("description", "description");
    ("author_name", "author_name"); ("created", "created");
    ("modified", "modified"); ("tags", "tags");
    ("references", "references") ].

Definition list_typed (field : string) : bool :=
  String.eqb field "tags" || String.eqb field "references".

(** The page of the worked example, its record and its document. *)
Definition example_record : pyval :=
  PDict [("id", PStr "p1"); ("name", PStr "X")].

Definition example_page : pyval :=
  PDict [("results", PList [example_record]); ("next", PNone)].

Definition example_document : dict :=
  [ ("_id", PStr "p1"); ("name", PStr "X"); ("description", PNone);
    ("author_name", PNone); ("created", PNone); ("modified", PNone);
    ("tags", PList []); ("references", PList []) ].

(** ** The world: network, clock, log and database *)

Inductive level : Type := INFO | WARNING | ERROR.

(** The log lines of the program, with the values they interpolate. *)
Inductive message : Type :=
| MsgRateLimit (wait : Z)            (* "Rate limit hit (429). Waiting {wait}s ..." *)
| MsgHttpError (status_code : Z)     (* "HTTP {status_code}: ..." *)
| MsgNetworkError (wait : Z)         (* "Network error: ... Retrying in {wait}s..." *)
| MsgFailed (retries : Z)            (* "Failed to fetch after {retries} attempts." *)
| MsgFetching (page : Z) (url : pyval) (* "Fetching page {page} from {url}" *)
| MsgInvalidStructure                (* "Invalid response structure. Stopping ETL." *)
| MsgResultsMissing                  (* "'results' is missing or not a list. ..." *)
| MsgStopped (page_count : Z)        (* "Stopped after {page_count} pages." *)
| MsgSkipping                        (* "Skipping pulse with no ID." *)
| MsgUpserted (upserts : Z)          (* "Upserted {upserts} pulses this page." *)
| MsgFinished (total_upserts : Z)    (* "ETL finished. Total new pulses inserted: ..." *)
| MsgClosed.                         (* "MongoDB connection closed." *)

(** Everything the program does to the outside, in the order it does it. *)
Inductive event : Type :=
| EvGet (url : pyval)                (* [requests.get(url, ...)] *)
| EvSleep (secs : Z)                 (* [time.sleep(secs)] *)
| EvLog (lvl : level) (msg : message)
| EvUpdateOne (id : pyval) (fields : dict)  (* a write by [update_one] *)
| EvClose.                           (* [client.close()] *)

(** What [resp.json()] does: it returns the decoded body, or the body is
    not JSON and it raises.  Current [requests] raises its own
    [JSONDecodeError], a [RequestException]; older releases let the
    decoder's [ValueError] through. *)
Inductive json_outcome : Type :=
| Decoded (payload : pyval)
| DecodeRequestException
| DecodeValueError.

(** What [requests.get] hands back when it does not raise. *)
Record response : Type := Response {
  status_code : Z;
  json : json_outcome
}.

(** A MongoDB collection: its documents, in insertion order. *)
Definition collection := list dict.

(** [{"$set": fields}] applied to a document. *)
Definition apply_set (fields : dict) (doc : dict) : dict :=
  fold_left (fun d kv => set_field (fst kv) (snd kv) d) fields doc.

(** The filter [{"_id": id}]. *)
Definition matches_id (id : pyval) (doc : dict) : bool :=
  match lookup "_id" doc with
  | Some v => pyval_eqb v id
  | None => false
  end.

(** What an accepted
    [update_one({"_id": id}, {"$set": fields}, upsert=True)] does to the
    collection, after MongoDB's documented behaviour: the first matching
    document gets the fields set in place and [upserted_id] is [None];
    without a match a new document is built from the filter and the
    fields, inserted, and its identifier is the [upserted_id]. *)
Fixpoint coll_upsert (id : pyval) (fields : dict) (c : collection)
  : pyval * collection :=
  match c with
  | [] => (id, [apply_set fields [("_id", id)]])
  | doc :: c' =>
      if matches_id id doc then (PNone, apply_set fields doc :: c')
      else
        let (upserted_id, c'') := coll_upsert id fields c' in
        (upserted_id, doc :: c'')
  end.

(** BSON integers have eight bytes. *)
Definition INT64_MIN : Z := - 2 ^ 63.
Definition INT64_MAX : Z := 2 ^ 63 - 1.

Fixpoint has_nul (s : string) : bool :=
  match s with
  | EmptyString => false
  | String c s' => Ascii.eqb c "000"%char || has_nul s'
  end.

Definition dollar_prefixed (s : string) : bool :=
  match s with
  | String c _ => Ascii.eqb c "$"%char
  | EmptyString => false
  end.

(** What stops the BSON encoder on a value, if anything: the first integer
    beyond eight bytes ([OverflowError]) or the first key holding a NUL
    ([InvalidDocument]), in the order the encoder meets them. *)
Fixpoint encode_error (v : pyval) : option exn :=
  match v with
  | PInt z =>
      if (z <? INT64_MIN) || (INT64_MAX <? z) then Some OverflowError
      else None
  | PList items =>
      (fix go (l : list pyval) : option exn :=
         match l with
         | [] => None
         | x :: l' =>
             match encode_error x with
             | Some e => Some e
             | None => go l'
             end
         end) items
  | PDict fields =>
      (fix go (l : dict) : option exn :=
         match l with
         | [] => None
         | (k, x) :: l' =>
             if has_nul k then Some InvalidDocument
             else
               match encode_error x with
               | Some e => Some e
               | None => go l'
               end
         end) fields
  | _ => None
  end.

(** A value holds a key that starts with a dollar sign. *)
Fixpoint dollar_keys (v : pyval) : bool :=
  match v with
  | PList items =>
      (fix go (l : list pyval) : bool :=
         match l with
         | [] => false
         | x :: l' => dollar_keys x || go l'
         end) items
  | PDict fields =>
      (fix go (l : dict) : bool :=
         match l with
         | [] => false
         | (k, x) :: l' => dollar_prefixed k || dollar_keys x || go l'
         end) fields
  | _ => false
  end.

(** The server takes no array as [_id], and no mapping with dollar keys
    (as a filter those are operators, as a stored [_id] they are
    invalid). *)
Definition id_refused (id : pyval) : bool :=
  match id with
  | PList _ => true
  | PDict _ => dollar_keys id
  | _ => false
  end.

(** Why [update_one({"_id": id}, {"$set": fields}, upsert=True)] raises,
    if it does: the driver encodes the filter and then the update, and
    the server checks the identifier.  The store's limits on document size
    and nesting depth, and failures of the connection, are outside the
    model. *)
Definition write_error (id : pyval) (fields : dict) : option exn :=
  match encode_error id with
  | Some e => Some e
  | None =>
      match encode_error (PDict fields) with
      | Some e => Some e
      | None => if id_refused id then Some WriteError else None
      end
  end.

(** [collection.update_one({"_id": id}, {"$set": fields}, upsert=True)] on
    a collection: the exception it raises, or the [upserted_id] and the
    collection it leaves. *)
Definition coll_update_one (id : pyval) (fields : dict) (c : collection)
  : result (pyval * collection) :=
  match write_error id fields with
  | Some e => Raise e
  | None => Ret (coll_upsert id fields c)
  end.

(** The longest [time.sleep] takes: beyond it the duration does not fit
    the clock's 64-bit nanoseconds. *)
Definition MAX_SLEEP : Z := 9223372036.

(** Why [time.sleep(secs)] raises, if it does: a duration out of range
    first, a negative one next. *)
Definition sleep_error (secs : Z) : option exn :=
  if (secs <? - MAX_SLEEP) || (MAX_SLEEP <? secs) then Some OverflowError
  else if secs <? 0 then Some ValueError
  else None.

Definition is_update (e : event) : bool :=
  match e with EvUpdateOne _ _ => true | _ => false end.

(** The writes of a trace. *)
Definition updates (tr : list event) : list event := filter is_update tr.

(** A record the loader writes: a mapping with a truthy identifier, whose
    write the collection accepts. *)
Definition storable (pulse : pyval) : bool :=
  is_record pulse && truthy (raw_id pulse)
  && match write_error (raw_id pulse) (document pulse) with
     | Some _ => false
     | None => true
     end.

(** The write the loader issues for a record. *)
Definition write_of (pulse : pyval) : event :=
  EvUpdateOne (raw_id pulse) (document pulse).

Definition is_get (e : event) : bool :=
  match e with EvGet _ => true | _ => false end.

(** How many requests a trace holds. *)
Definition requests_made (tr : list event) : nat :=
  List.length (filter is_get tr).

Definition sleep_of (e : event) : Z :=
  match e with EvSleep secs => secs | _ => 0 end.

(** The seconds a trace spends asleep. *)
Definition slept (tr : list event) : Z :=
  fold_right (fun e acc => sleep_of e + acc) 0 tr.

(** The longest the fetcher can sleep over [attempts]. *)
Definition backoff_total (backoff_factor : Z) (attempts : list Z) : Z :=
  fold_right (fun attempt acc => backoff_factor * 2 ^ attempt + acc) 0 attempts.

(** The longest a run can sleep while [n] pages are left: the last page
    may use the whole schedule of 2 + 4 + 8 seconds and fail, each page
    before it was fetched after 2 + 4 seconds at most. *)
Definition sleep_budget (n : nat) : Z :=
  match n with
  | O => 0
  | S m => 14 + 6 * Z.of_nat m
  end.

(** [range(n)] *)
Definition range (n : Z) : list Z := map Z.of_nat (seq 0 (Z.to_nat n)).

Definition MAX_PAGES : Z := 5.

(** The state of the world around one run: the server, the collection and
    what has happened so far. *)
Record state (W : Type) : Type := State {
  net : W;
  db : collection;
  trace : list event
}.
Arguments State {W} net db trace.
Arguments net {W} s.
Arguments db {W} s.
Arguments trace {W} s.

(** A scripted server for examples: it plays back a list of answers, one per
    request, and fails at the network level once the list is used up. *)
Definition script := list (option response).

Definition play (url : pyval) (w : script) : option response * script :=
  match w with
  | [] => (None, [])
  | r :: w' => (r, w')
  end.

(** A server that answers every request with the same response. *)
Definition always (r : response) (url : pyval) (w : unit)
  : option response * unit := (Some r, tt).

Definition fresh {W} (w : W) : state W := State w [] [].

(** Answers for the scripted server. *)
Definition ok (payload : pyval) : option response :=
  Some (Response 200 (Decoded payload)).

Definition status (code : Z) : option response :=
  Some (Response code DecodeRequestException).


(** A page whose cursor always leads on. *)
Definition endless_page : pyval :=
  PDict [("results", PList [example_record]); ("next", PStr "http://next")].

(** A payload that is a mapping without [results]. *)
Definition page_without_results : pyval :=
  PDict [("count", PInt 0); ("next", PStr "http://next")].

(** Two pages of two records each, with four different identifiers. *)
Definition sample_pages : list (list pyval) :=
  [ [ PDict [("id", PStr "a"); ("name", PStr "A")];
      PDict [("id", PStr "b")] ];
    [ PDict [("id", PInt 7); ("tags", PList [PStr "t"])];
      PDict [("id", PStr "d")] ] ].

(** A page without records whose cursor leads on. *)
Definition empty_page_fields : dict :=
  [("results", PList []); ("next", PStr "http://next")].

(** A first page of two records with a cursor, and a last page of one. *)
Definition first_page : pyval :=
  PDict [ ("results", PList [ PDict [("id", PStr "a")];
                              PDict [("id", PStr "b"); ("name", PStr "B")] ]);
          ("next", PStr "http://next") ].

Definition last_page : pyval :=
  PDict [ ("results", PList [ PDict [("id", PStr "a"); ("name", PStr "A2")] ]);
          ("next", PNone) ].

(** A page whose second record is a string, not a mapping. *)
Definition broken_page_fields : dict :=
  [ ("results", PList [ example_record; PStr "oops";
                        PDict [("id", PStr "p2")] ]);
    ("next", PNone) ].

Section Connector.

(** The remote server: a state [W] and the answer [requests.get] draws
    from it for a target address, [None] standing for a raised
    [requests.RequestException].  The fixed [HEADERS] and
    [REQUEST_TIMEOUT] are part of it. *)
Variable W : Type.
Variable requests_get : pyval -> W -> option response * W.

(** The configured base endpoint. *)
Variable BASE_URL : string.

Local Abbreviation state := (state W).

Definition emit (e : event) (st : state) : state :=
  State (net st) (db st) (trace st ++ [e]).

(** *** The monad *)

Definition M (A : Type) : Type := state -> result A * state.

Definition ret {A} (a : A) : M A := fun st => (Ret a, st).

Definition raise {A} (e : exn) : M A := fun st => (Raise e, st).

Definition bind {A B} (m : M A) (k : A -> M B) : M B :=
  fun st =>
    match m st with
    | (Ret a, st') => k a st'
    | (Raise e, st') => (Raise e, st')
    end.

Definition lift {A} (r : result A) : M A := fun st => (r, st).

Notation "x <- m ;; k" := (bind m (fun x => k))
  (at level 61, m at next level, right associativity).
Notation "m ;; k" := (bind m (fun _ => k))
  (at level 61, right associativity).

(** *** Primitive effects *)

Definition http_get (url : pyval) : M (option response) :=
  fun st =>
    let (r, w) := requests_get url (net st) in
    (Ret r, State w (db st) (trace st ++ [EvGet url])).

(** [time.sleep(secs)]: it raises for a duration it does not take, and
    sleeps otherwise. *)
Definition sleep (secs : Z) : M unit :=
  fun st =>
    match sleep_error secs with
    | Some e => (Raise e, st)
    | None => (Ret tt, emit (EvSleep secs) st)
    end.

Definition log (lvl : level) (msg : message) : M unit :=
  fun st => (Ret tt, emit (EvLog lvl msg) st).

Definition update_one (id : pyval) (fields : dict) : M pyval :=
  fun st =>
    match coll_update_one id fields (db st) with
    | Ret (upserted_id, c) =>
        (Ret upserted_id,
         State (net st) c (trace st ++ [EvUpdateOne id fields]))
    | Raise e => (Raise e, st)
    end.

Definition client_close : M unit :=
  fun st => (Ret tt, emit EvClose st).

(** *** The fetcher *)

(** The two lines after the [for] loop, reached when the attempts run out
    and by [break]. *)
Definition fetch_failed (retries : Z) : M pyval :=
  log ERROR (MsgFailed retries) ;;
  ret PNone.

(** The [except requests.RequestException] handler, followed by the rest
    of the loop. *)
Definition on_request_exception (backoff_factor attempt : Z)
    (continue : M pyval) : M pyval :=
  let wait := backoff_factor * 2 ^ attempt in
  log WARNING (MsgNetworkError wait) ;;
  sleep wait ;;
  continue.

(** The [for attempt in range(retries)] loop over the attempts still to
    make. *)
Fixpoint fetch_attempts (url : pyval) (retries backoff_factor : Z)
    (attempts : list Z) : M pyval :=
  match attempts with
  | [] => fetch_failed retries
  | attempt :: rest =>
      let continue := fetch_attempts url retries backoff_factor rest in
      r <- http_get url ;;
      match r with
      | Some resp =>
          if status_code resp =? 200 then
            match json resp with
            | Decoded payload => ret payload
            | DecodeRequestException =>
                on_request_exception backoff_factor attempt continue
            | DecodeValueError => raise ValueError
            end
          else if status_code resp =? 429 then
            let wait := backoff_factor * 2 ^ attempt in
            log WARNING (MsgRateLimit wait) ;;
            sleep wait ;;
            continue
          else
            log ERROR (MsgHttpError (status_code resp)) ;;
            fetch_failed retries
      | None => on_request_exception backoff_factor attempt continue
      end
  end.

Definition fetch_with_retries (url : pyval) (retries backoff_factor : Z)
  : M pyval :=
  fetch_attempts url retries backoff_factor (range retries).

(** *** The paginator *)

(** Where the generator [extract_pulses] stands between two calls of
    [next]: not started, suspended at its [yield] (holding [data] and
    [page_count]), or finished. *)
Inductive gen_state : Type :=
| GenStart
| GenSuspended (data : dict) (page_count : Z)
| GenDone.

(** The line after the [while] loop; the generator then ends. *)
Definition stopped (page_count : Z) : M (option (list pyval) * gen_state) :=
  log INFO (MsgStopped page_count) ;;
  ret (None, GenDone).

(** From the [while] test to the next [yield] or to the end.  The fetcher
    is called with its default [retries=3, backoff_factor=2]. *)
Definition extract_iteration (url : pyval) (page_count : Z)
  : M (option (list pyval) * gen_state) :=
  if truthy url && (page_count <? MAX_PAGES) then
    log INFO (MsgFetching (page_count + 1) url) ;;
    data <- fetch_with_retries url 3 2 ;;
    match data with
    | PDict d =>
        match dict_get "results" PNone d with
        | PList results => ret (Some results, GenSuspended d page_count)
        | _ => log ERROR MsgResultsMissing ;; stopped page_count
        end
    | _ => log ERROR MsgInvalidStructure ;; stopped page_count
    end
  else stopped page_count.

(** [next(gen)]: [Some page] for a yielded page, [None] for
    [StopIteration]. *)
Definition gen_next (g : gen_state) : M (option (list pyval) * gen_state) :=
  match g with
  | GenStart => extract_iteration (PStr BASE_URL) 0
  | GenSuspended data page_count =>
      extract_iteration (dict_get "next" PNone data) (page_count + 1)
  | GenDone => ret (None, GenDone)
  end.

(** *** The loader *)

(** The [for pulse in pulses] loop, with the running count [upserts]. *)
Fixpoint load_from (pulses : list pyval) (upserts : Z) : M Z :=
  match pulses with
  | [] => ret upserts
  | pulse :: rest =>
      transformed <- lift (transform_pulse pulse) ;;
      id <- lift (py_getitem transformed "_id") ;;
      if negb (truthy id) then
        log WARNING MsgSkipping ;;
        load_from rest upserts
      else
        upserted_id <- update_one id transformed ;;
        match upserted_id with
        | PNone => load_from rest upserts
        | _ => load_from rest (upserts + 1)
        end
  end.

Definition load_pulses (pulses : list pyval) : M Z := load_from pulses 0.

(** *** The driver *)

(** The body of the [for pulses in extract_pulses()] loop. *)
Definition load_page (pulses : list pyval) (total_upserts : Z) : M Z :=
  upserts <- load_pulses pulses ;;
  log INFO (MsgUpserted upserts) ;;
  ret (total_upserts + upserts).

(** An upper bound on the pages a generator can still yield. *)
Definition pages_left (g : gen_state) : nat :=
  match g with
  | GenStart => Z.to_nat MAX_PAGES
  | GenSuspended _ page_count => Z.to_nat (MAX_PAGES - 1 - page_count)
  | GenDone => 0%nat
  end.

(** A page is only yielded while [page_count < MAX_PAGES], and the
    suspended generator remembers that count: each yield uses up one of
    the pages left.  This is what makes the loops below terminate. *)
Lemma extract_iteration_yield url page_count st pulses g' st' :
  extract_iteration url page_count st = (Ret (Some pulses, g'), st') ->
  exists d, g' = GenSuspended d page_count /\ page_count < MAX_PAGES.
Proof.
  unfold extract_iteration.
  destruct (truthy url && (page_count <? MAX_PAGES)) eqn:Hc.
  - apply andb_prop in Hc. destruct Hc as [_ Hc]. apply Z.ltb_lt in Hc.
    unfold bind, log, stopped, ret.
    destruct (fetch_with_retries url 3 2 _) as [[data | e] s1];
      [ | discriminate ].
    destruct data as [ | | | | | d ]; try discriminate.
    destruct (dict_get "results" PNone d); try discriminate.
    intros H. injection H as _ <- _. eauto.
  - unfold bind, log, stopped, ret. discriminate.
Qed.

Lemma gen_next_yield_decreases g st pulses g' st' :
  gen_next g st = (Ret (Some pulses, g'), st') ->
  (pages_left g' < pages_left g)%nat.
Proof.
  destruct g as [ | d pc | ]; unfold gen_next; intros H.
  - apply extract_iteration_yield in H. destruct H as [d [-> _]].
    unfold pages_left, MAX_PAGES. lia.
  - apply extract_iteration_yield in H. destruct H as [d' [-> Hlt]].
    unfold pages_left. lia.
  - discriminate.
Qed.

Definition inspect {A} (a : A) : {b : A | a = b} := exist _ a eq_refl.

(** The [for pulses in extract_pulses()] loop of [run_etl]: pull a page,
    load it, repeat until the generator ends. *)
Equations? for_pages (g : gen_state) (total_upserts : Z) (st : state)
  : result Z * state by wf (pages_left g) lt :=
  for_pages g total_upserts st with inspect (gen_next g st) := {
    | exist _ (Ret (Some pulses, g'), st1) Hnext
        with load_page pulses total_upserts st1 := {
        | (Ret total', st2) => for_pages g' total' st2
        | (Raise e, st2) => (Raise e, st2) }
    | exist _ (Ret (None, _), st1) _ => (Ret total_upserts, st1)
    | exist _ (Raise e, st1) _ => (Raise e, st1) }.
Proof. exact (gen_next_yield_decreases _ _ _ _ _ Hnext). Qed.

(** [try: body finally: handler] *)
Definition try_finally {A} (body : M A) (handler : M unit) : M A :=
  fun st =>
    let (r, st1) := body st in
    match handler st1 with
    | (Ret _, st2) => (r, st2)
    | (Raise e, st2) => (Raise e, st2)
    end.

Definition run_etl : M unit :=
  try_finally
    (total_upserts <- for_pages GenStart 0 ;;
     log INFO (MsgFinished total_upserts))
    (client_close ;;
     log INFO MsgClosed).

(** Iterating [extract_pulses()] to its end: the pages it yields, and the
    exception that ended the iteration, if one did. *)
Equations? collect_pages (g : gen_state) (st : state)
  : (list (list pyval) * option exn) * state by wf (pages_left g) lt :=
  collect_pages g st with inspect (gen_next g st) := {
    | exist _ (Ret (Some pulses, g'), st1) Hnext
        with collect_pages g' st1 := {
        | ((pages, e), st2) => ((pulses :: pages, e), st2) }
    | exist _ (Ret (None, _), st1) _ => (([], None), st1)
    | exist _ (Raise e, st1) _ => (([], Some e), st1) }.
Proof. exact (gen_next_yield_decreases _ _ _ _ _ Hnext). Qed.

Definition extract_pulses : state -> (list (list pyval) * option exn) * state :=
  collect_pages GenStart.

(** The loop of [run_etl] over a given sequence of pages. *)
Fixpoint load_all (pages : list (list pyval)) (total_upserts : Z) : M Z :=
  match pages with
  | [] => ret total_upserts
  | pulses :: pages' =>
      total' <- load_page pulses total_upserts ;;
      load_all pages' total'
  end.

(** *** Vocabulary of the properties *)

(** Two states hold the same collection and have seen the same writes. *)
Definition same_store (st st' : state) : Prop :=
  db st = db st' /\ updates (trace st) = updates (trace st').

(** Two runs end alike, as far as the result and the store go. *)
Definition same_outcome {A} (x y : result A * state) : Prop :=
  fst x = fst y /\ same_store (snd x) (snd y).






(** A success whose payload is a page with records and a cursor to go
    on with. *)
Definition valid_page (r : option response) : Prop :=
  exists d results,
    r = Some (Response 200 (Decoded (PDict d)))
    /\ dict_get "results" PNone d = PList results
    /\ truthy (dict_get "next" PNone d) = true.

(** The address and the page count the generator resumes its [while]
    test with. *)
Definition gen_target (g : gen_state) : option (pyval * Z) :=
  match g with
  | GenStart => Some (PStr BASE_URL, 0)
  | GenSuspended data page_count =>
      Some (dict_get "next" PNone data, page_count + 1)
  | GenDone => None
  end.


(** From [st] to [st'] at most [gets] requests were made and at most
    [secs] seconds slept. *)
Definition spent (st st' : state) (gets : nat) (secs : Z) : Prop :=
  (requests_made (trace st') <= requests_made (trace st) + gets)%nat
  /\ slept (trace st') <= slept (trace st) + secs.

(** ** Properties *)

(** *** The monad's primitive steps *)



(** A sleep that happens lasts a duration [time.sleep] takes. *)
Lemma sleep_error_none_range secs :
  sleep_error secs = None -> 0 <= secs <= MAX_SLEEP.
Proof.
  unfold sleep_error.
  destruct ((secs <? - MAX_SLEEP) || (MAX_SLEEP <? secs)) eqn:H;
    [ discriminate | ].
  destruct (secs <? 0) eqn:H0; [ discriminate | ].
  intros _. apply orb_false_iff in H. destruct H as [_ H].
  apply Z.ltb_ge in H, H0. lia.
Qed.

Lemma backoff_nonneg backoff_factor attempt :
  0 <= backoff_factor -> 0 <= backoff_factor * 2 ^ attempt.
Proof.
  intros H. apply Z.mul_nonneg_nonneg; [exact H | ].
  apply Z.pow_nonneg. lia.
Qed.


(** *** [range] *)

Lemma range_length n : List.length (range n) = Z.to_nat n.
Proof. unfold range. rewrite length_map, length_seq. reflexivity. Qed.



(** *** Unfolding the loops *)

Lemma for_pages_step g total_upserts st :
  for_pages g total_upserts st =
  match gen_next g st with
  | (Ret (Some pulses, g'), st1) =>
      match load_page pulses total_upserts st1 with
      | (Ret total', st2) => for_pages g' total' st2
      | (Raise e, st2) => (Raise e, st2)
      end
  | (Ret (None, _), st1) => (Ret total_upserts, st1)
  | (Raise e, st1) => (Raise e, st1)
  end.
Proof.
  funelim (for_pages g total_upserts st);
    try match goal with H : gen_next _ _ = _ |- _ => rewrite H end;
    try match goal with H : load_page _ _ _ = _ |- _ => rewrite H end;
    reflexivity.
Qed.

Lemma collect_pages_step g st :
  collect_pages g st =
  match gen_next g st with
  | (Ret (Some pulses, g'), st1) =>
      match collect_pages g' st1 with
      | ((pages, e), st2) => ((pulses :: pages, e), st2)
      end
  | (Ret (None, _), st1) => (([], None), st1)
  | (Raise e, st1) => (([], Some e), st1)
  end.
Proof.
  funelim (collect_pages g st);
    try match goal with H : gen_next _ _ = _ |- _ => rewrite H end;
    try match goal with H : collect_pages _ _ = (_, _) |- _ => rewrite H end;
    reflexivity.
Qed.

(** *** Python values *)

Lemma pyval_eqb_refl v : pyval_eqb v v = true.
Proof.
  induction v as [ | b | z | s | items IH | fields IH ] using pyval_ind'.
  - reflexivity.
  - destruct b; reflexivity.
  - apply Z.eqb_refl.
  - apply String.eqb_refl.
  - induction IH as [ | x l Hx _ IHl ]; [ reflexivity | ].
    simpl in *. rewrite Hx, IHl. reflexivity.
  - induction IH as [ | [k x] l Hx _ IHl ]; [ reflexivity | ].
    simpl in *. rewrite String.eqb_refl, Hx, IHl. reflexivity.
Qed.

Lemma pyval_eqb_true a : forall b, pyval_eqb a b = true -> a = b.
Proof.
  induction a as [ | x | x | x | items IH | fields IH ] using pyval_ind';
    intros b; destruct b as [ | y | y | y | items' | fields' ];
    simpl; try discriminate.
  - reflexivity.
  - intros H. apply Bool.eqb_prop in H. congruence.
  - intros H. apply Z.eqb_eq in H. congruence.
  - intros H. apply String.eqb_eq in H. congruence.
  - intros H. f_equal. revert items' H.
    induction IH as [ | x l Hx _ IHl ]; intros [ | y l' ];
      try discriminate; [ reflexivity | ].
    intros H. apply andb_prop in H. destruct H as [H1 H2].
    f_equal; [ apply Hx; exact H1 | apply IHl; exact H2 ].
  - intros H. f_equal. revert fields' H.
    induction IH as [ | [k x] l Hx _ IHl ]; intros [ | [k' y] l' ];
      try discriminate; [ reflexivity | ].
    intros H. apply andb_prop in H. destruct H as [H12 H3].
    apply andb_prop in H12. destruct H12 as [H1 H2].
    apply String.eqb_eq in H1. simpl in Hx. apply Hx in H2.
    apply IHl in H3. congruence.
Qed.

Lemma pyval_eqb_neq a b : a <> b -> pyval_eqb a b = false.
Proof.
  intros H. destruct (pyval_eqb a b) eqn:E; [ | reflexivity ].
  apply pyval_eqb_true in E. contradiction.
Qed.

(** *** The fetcher *)

(** The fetcher never touches the collection. *)
Lemma fetch_attempts_db url retries backoff_factor attempts :
  forall st r st',
    fetch_attempts url retries backoff_factor attempts st = (r, st') ->
    db st' = db st.
Proof.
  induction attempts as [ | attempt rest IH ]; intros st r st'.
  - simpl. unfold fetch_failed, bind, log, ret. simpl.
    intros H. injection H as _ <-. reflexivity.
  - simpl. unfold bind at 1. unfold http_get.
    destruct (requests_get url (net st)) as [o w'].
    assert (Hexc : forall s,
               db s = db st ->
               on_request_exception backoff_factor attempt
                 (fetch_attempts url retries backoff_factor rest) s
               = (r, st') -> db st' = db st).
    { intros s Hs. unfold on_request_exception, bind, log, sleep.
      destruct (sleep_error _).
      - intros H. injection H as _ <-. exact Hs.
      - intros H. apply IH in H. rewrite H. exact Hs. }
    destruct o as [ resp | ]; [ | apply Hexc; reflexivity ].
    destruct (status_code resp =? 200).
    + destruct (json resp).
      * unfold ret. intros H. injection H as _ <-. reflexivity.
      * apply Hexc. reflexivity.
      * unfold raise. intros H. injection H as _ <-. reflexivity.
    + destruct (status_code resp =? 429).
      * unfold bind, log, sleep. destruct (sleep_error _).
        -- intros H. injection H as _ <-. reflexivity.
        -- intros H. apply IH in H. exact H.
      * unfold fetch_failed, bind, log, ret.
        intros H. injection H as _ <-. reflexivity.
Qed.









(** *** The loader *)

(** One turn of the loader's loop on a mapping. *)
Lemma load_from_record d rest upserts st :
  load_from (PDict d :: rest) upserts st =
  let id := dict_get "id" PNone d in
  let transformed := document (PDict d) in
  if truthy id then
    match write_error id transformed with
    | Some e => (Raise e, st)
    | None =>
        let (upserted_id, c) := coll_upsert id transformed (db st) in
        let st' :=
          State (net st) c (trace st ++ [EvUpdateOne id transformed]) in
        match upserted_id with
        | PNone => load_from rest upserts st'
        | _ => load_from rest (upserts + 1) st'
        end
    end
  else load_from rest upserts (emit (EvLog WARNING MsgSkipping) st).
Proof.
  cbn [load_from]. unfold bind at 1. unfold lift.
  cbn [transform_pulse py_get rbind document].
  unfold bind at 1. cbn [py_getitem lookup String.eqb Ascii.eqb Bool.eqb].
  destruct (truthy (dict_get "id" PNone d)); cbn [negb].
  - unfold bind, update_one, coll_update_one.
    destruct (write_error _ _); [ reflexivity | ].
    destruct (coll_upsert _ _ (db st)) as [u c].
    destruct u; reflexivity.
  - reflexivity.
Qed.

(** A record whose identifier is falsy costs a warning and nothing else. *)
Lemma load_from_skip d rest upserts st :
  truthy (dict_get "id" PNone d) = false ->
  load_from (PDict d :: rest) upserts st =
  load_from rest upserts (emit (EvLog WARNING MsgSkipping) st).
Proof. intros H. rewrite load_from_record. cbv zeta. rewrite H. reflexivity. Qed.

Lemma load_from_app l1 l2 :
  forall upserts st,
    load_from (l1 ++ l2) upserts st =
    match load_from l1 upserts st with
    | (Ret upserts', st') => load_from l2 upserts' st'
    | (Raise e, st') => (Raise e, st')
    end.
Proof.
  induction l1 as [ | pulse l1 IH ]; intros upserts st; [ reflexivity | ].
  destruct pulse as [ | b | z | s | items | d ]; try reflexivity.
  rewrite <- app_comm_cons, !load_from_record. cbv zeta.
  destruct (truthy _).
  - destruct (write_error _ _); [ reflexivity | ].
    destruct (coll_upsert _ _ _) as [u c].
    destruct u; apply IH.
  - apply IH.
Qed.

Lemma same_store_refl (st : state) : same_store st st.
Proof. split; reflexivity. Qed.

Lemma same_store_log lvl msg (st st' : state) :
  same_store st st' -> same_store (emit (EvLog lvl msg) st) st'.
Proof.
  intros [Hdb Hup]. split; [ exact Hdb | ].
  unfold emit, updates in *. cbn [trace]. rewrite filter_app.
  cbn [filter is_update]. rewrite app_nil_r. exact Hup.
Qed.

(** The loader reads nothing but the collection: from states that agree
    on the store it ends with the same result and stores that agree. *)
Lemma load_from_same_store pulses :
  forall upserts st st',
    same_store st st' ->
    same_outcome (load_from pulses upserts st) (load_from pulses upserts st').
Proof.
  induction pulses as [ | pulse rest IH ]; intros upserts st st' Hsame.
  - split; [ reflexivity | exact Hsame ].
  - destruct pulse as [ | b | z | s | items | d ];
      try (split; [ reflexivity | exact Hsame ]).
    rewrite !load_from_record. cbv zeta.
    destruct (truthy _).
    + destruct (write_error _ _); [ split; [ reflexivity | exact Hsame ] | ].
      destruct Hsame as [Hdb Hup]. rewrite <- Hdb.
      destruct (coll_upsert _ _ _) as [u c].
      assert (Hnext : same_store
                (State (net st) c (trace st ++ [EvUpdateOne
                   (dict_get "id" PNone d) (document (PDict d))]))
                (State (net st') c (trace st' ++ [EvUpdateOne
                   (dict_get "id" PNone d) (document (PDict d))]))).
      { split; [ reflexivity | ]. unfold updates in *. cbn [trace].
        rewrite !filter_app, Hup. reflexivity. }
      destruct u; apply IH; exact Hnext.
    + apply IH. apply same_store_log.
      destruct Hsame as [Hdb Hup]. split; [ exact Hdb | ].
      symmetry. symmetry in Hup.
      unfold emit, updates in *. cbn [trace]. rewrite filter_app.
      cbn [filter is_update]. rewrite app_nil_r. exact Hup.
Qed.

(** Wherever it stands in the batch, a record whose identifier is falsy
    changes neither the result, nor the store, nor the writes. *)
Lemma load_from_skip_anywhere before d rest upserts st :
  truthy (dict_get "id" PNone d) = false ->
  same_outcome (load_from (before ++ PDict d :: rest) upserts st)
               (load_from (before ++ rest) upserts st).
Proof.
  intros H. rewrite !load_from_app.
  destruct (load_from before upserts st) as [[upserts' | e] st'].
  - rewrite (load_from_skip _ _ _ _ H).
    apply load_from_same_store. apply same_store_log. apply same_store_refl.
  - split; [ reflexivity | apply same_store_refl ].
Qed.

(** C5.  A record whose identifier is absent, null or the empty string is
    skipped with a warning: the loader goes on to the rest of the batch
    with the count and the collection untouched, and the whole batch ends
    with the same count, the same collection and the same writes as the
    batch without that record. *)
Theorem load_skips_missing_id d :
  lookup "id" d = None \/ lookup "id" d = Some PNone
  \/ lookup "id" d = Some (PStr "") ->
  (forall rest upserts st,
      load_from (PDict d :: rest) upserts st =
      load_from rest upserts (emit (EvLog WARNING MsgSkipping) st))
  /\
  (forall before rest st,
      same_outcome (load_pulses (before ++ PDict d :: rest) st)
                   (load_pulses (before ++ rest) st)).
Proof.
  intros Hid.
  assert (Hfalsy : truthy (dict_get "id" PNone d) = false).
  { unfold dict_get. destruct Hid as [ -> | [ -> | -> ] ]; reflexivity. }
  split.
  - intros rest upserts st. apply load_from_skip. exact Hfalsy.
  - intros before rest st. unfold load_pulses.
    apply load_from_skip_anywhere. exact Hfalsy.
Qed.

(** C10.  The loader skips a record exactly on the falsiness of its
    transformed identifier: whenever [bool(transformed["_id"])] is false
    it writes nothing and counts nothing for the record.  The falsy
    identifiers are [None], [False], [0], the empty string, the empty list
    and the empty dict. *)
Theorem load_skips_falsy_id d id :
  py_getitem (document (PDict d)) "_id" = Ret id ->
  truthy id = false ->
  (forall rest upserts st,
      load_from (PDict d :: rest) upserts st =
      load_from rest upserts (emit (EvLog WARNING MsgSkipping) st))
  /\
  (forall before rest st,
      same_outcome (load_pulses (before ++ PDict d :: rest) st)
                   (load_pulses (before ++ rest) st))
  /\
  In id [PNone; PBool false; PInt 0; PStr ""; PList []; PDict []].
Proof.
  intros Hid Hfalsy.
  cbn in Hid. injection Hid as <-.
  split; [ | split ].
  - intros rest upserts st. apply load_from_skip. exact Hfalsy.
  - intros before rest st. unfold load_pulses.
    apply load_from_skip_anywhere. exact Hfalsy.
  - destruct (dict_get "id" PNone d) as [ | b | z | s | items | fields ];
      simpl in Hfalsy |- *.
    + auto.
    + subst b. auto.
    + apply negb_false_iff in Hfalsy. apply Z.eqb_eq in Hfalsy.
      subst z. auto.
    + apply negb_false_iff in Hfalsy. apply String.eqb_eq in Hfalsy.
      subst s. auto 6.
    + destruct items; [ auto 6 | discriminate ].
    + destruct fields; [ auto 7 | discriminate ].
Qed.

(** *** Upserts *)

Lemma NoDup_app_disjoint {A} (l1 l2 : list A) :
  NoDup (l1 ++ l2) -> forall a, In a l1 -> ~ In a l2.
Proof.
  induction l1 as [ | x l1 IH ]; intros Hnd a Hin; [ destruct Hin | ].
  simpl in Hnd. apply NoDup_cons_iff in Hnd. destruct Hnd as [Hx Hnd].
  destruct Hin as [ <- | Hin ].
  - intros H2. apply Hx. apply in_or_app. right. exact H2.
  - apply IH; assumption.
Qed.

Lemma storable_record pulse :
  storable pulse = true ->
  exists d,
    pulse = PDict d
    /\ truthy (dict_get "id" PNone d) = true
    /\ write_error (dict_get "id" PNone d) (document (PDict d)) = None.
Proof.
  unfold storable. intros H. apply andb_prop in H. destruct H as [H Ha].
  apply andb_prop in H. destruct H as [Hr Ht].
  destruct pulse; try discriminate. eexists.
  split; [ reflexivity | ]. split; [ exact Ht | ].
  cbn [raw_id] in Ha. destruct (write_error _ _); [ discriminate | reflexivity ].
Qed.

(** The filter [{"_id": id}] on a normalized document compares the raw
    identifier. *)
Lemma matches_id_document d id :
  matches_id id (document (PDict d)) = pyval_eqb (dict_get "id" PNone d) id.
Proof. reflexivity. Qed.

(** Without a match the document built from the filter and the [$set]
    fields is inserted at the end; for a normalized document it is that
    document. *)
Lemma coll_upsert_insert d c :
  (forall doc, In doc c -> matches_id (dict_get "id" PNone d) doc = false) ->
  coll_upsert (dict_get "id" PNone d) (document (PDict d)) c =
  (dict_get "id" PNone d, c ++ [document (PDict d)]).
Proof.
  induction c as [ | doc c IH ]; intros Hfresh.
  - reflexivity.
  - cbn [coll_upsert]. rewrite (Hfresh doc) by (left; reflexivity).
    rewrite IH by (intros doc' Hin; apply Hfresh; right; exact Hin).
    reflexivity.
Qed.

(** With a match the fields are set in place; on the document the same
    record produced, that changes nothing. *)
Lemma coll_upsert_present records :
  Forall (fun r => storable r = true) records ->
  NoDup (map raw_id records) ->
  forall r,
    In r records ->
    coll_upsert (raw_id r) (document r) (map document records) =
    (PNone, map document records).
Proof.
  induction records as [ | r0 records IH ]; intros Hst Hnd r Hin;
    [ destruct Hin | ].
  apply Forall_cons_iff in Hst. destruct Hst as [Hr0 Hst].
  cbn [map] in Hnd. apply NoDup_cons_iff in Hnd. destruct Hnd as [Hnew Hnd].
  apply storable_record in Hr0. destruct Hr0 as [d0 [-> [Hd0 _]]].
  cbn [map coll_upsert]. rewrite matches_id_document.
  destruct Hin as [ <- | Hin ].
  - cbn [raw_id]. rewrite pyval_eqb_refl. reflexivity.
  - rewrite pyval_eqb_neq.
    + rewrite (IH Hst Hnd r Hin). reflexivity.
    + intros Heq. apply Hnew. cbn [raw_id]. rewrite Heq.
      apply in_map. exact Hin.
Qed.

(** Loading records whose identifiers are truthy, pairwise different and
    not yet in the collection inserts every one of them. *)
Lemma load_from_new records :
  Forall (fun r => storable r = true) records ->
  NoDup (map raw_id records) ->
  forall upserts st,
    (forall r doc, In r records -> In doc (db st) ->
                   matches_id (raw_id r) doc = false) ->
    load_from records upserts st =
    (Ret (upserts + Z.of_nat (List.length records)),
     State (net st) (db st ++ map document records)
       (trace st
        ++ map write_of records)).
Proof.
  induction records as [ | r records IH ]; intros Hst Hnd upserts st Hfresh.
  - cbn. rewrite Z.add_0_r, !app_nil_r. destruct st. reflexivity.
  - apply Forall_cons_iff in Hst. destruct Hst as [Hr Hst].
    cbn [map] in Hnd. apply NoDup_cons_iff in Hnd. destruct Hnd as [Hnew Hnd].
    apply storable_record in Hr. destruct Hr as [d [-> [Hd Hacc]]].
    rewrite load_from_record. cbv zeta. rewrite Hd, Hacc.
    rewrite coll_upsert_insert
      by (intros doc Hin; apply (Hfresh (PDict d)); [ left; reflexivity | exact Hin ]).
    assert (Hgo : forall st',
               match dict_get "id" PNone d with
               | PNone => load_from records upserts st'
               | _ => load_from records (upserts + 1) st'
               end = load_from records (upserts + 1) st').
    { intros st'. destruct (dict_get "id" PNone d);
        [ discriminate | reflexivity .. ]. }
    rewrite Hgo. rewrite IH; [ | exact Hst | exact Hnd | ].
    + cbn [net db trace map List.length raw_id].
      rewrite <- !app_assoc. cbn [app].
      f_equal. f_equal. lia.
    + cbn [db]. intros r doc Hr Hdoc. apply in_app_or in Hdoc.
      destruct Hdoc as [ Hdoc | [ <- | [] ] ].
      * apply Hfresh; [ right; exact Hr | exact Hdoc ].
      * rewrite matches_id_document. apply pyval_eqb_neq.
        intros Heq. apply Hnew. cbn [raw_id]. rewrite Heq.
        apply in_map. exact Hr.
Qed.

(** Loading records that are all in the collection already, as the
    documents they produce, inserts nothing and leaves every document as
    it is. *)
Lemma load_from_present stored :
  Forall (fun r => storable r = true) stored ->
  NoDup (map raw_id stored) ->
  forall records upserts st,
    (forall r, In r records -> In r stored) ->
    db st = map document stored ->
    load_from records upserts st =
    (Ret upserts,
     State (net st) (db st)
       (trace st
        ++ map write_of records)).
Proof.
  intros Hst Hnd.
  induction records as [ | r records IH ]; intros upserts st Hin Hdb.
  - cbn. rewrite app_nil_r. destruct st. reflexivity.
  - assert (Hr : In r stored) by (apply Hin; left; reflexivity).
    pose proof (coll_upsert_present stored Hst Hnd r Hr) as Hup.
    rewrite Forall_forall in Hst. pose proof (Hst r Hr) as Hsr.
    apply storable_record in Hsr. destruct Hsr as [d [-> [Hd Hacc]]].
    rewrite load_from_record. cbv zeta. rewrite Hd, Hacc, Hdb.
    cbn [raw_id] in Hup. rewrite Hup.
    rewrite IH.
    + cbn [net db trace map raw_id]. rewrite <- Hdb, <- !app_assoc.
      reflexivity.
    + intros r' Hr'. apply Hin. right. exact Hr'.
    + reflexivity.
Qed.

Lemma updates_app tr tr' : updates (tr ++ tr') = updates tr ++ updates tr'.
Proof. apply filter_app. Qed.

Lemma updates_writes records : updates (map write_of records) = map write_of records.
Proof.
  induction records as [ | r records IH ]; [ reflexivity | ].
  cbn. unfold updates in IH. rewrite IH. reflexivity.
Qed.

Lemma load_all_new pages :
  Forall (fun r => storable r = true) (List.concat pages) ->
  NoDup (map raw_id (List.concat pages)) ->
  forall total_upserts st,
    (forall r doc, In r (List.concat pages) -> In doc (db st) ->
                   matches_id (raw_id r) doc = false) ->
    exists tr,
      load_all pages total_upserts st =
      (Ret (total_upserts + Z.of_nat (List.length (List.concat pages))),
       State (net st) (db st ++ map document (List.concat pages)) tr)
      /\ updates tr = updates (trace st) ++ map write_of (List.concat pages).
Proof.
  induction pages as [ | pulses pages IH ]; intros Hst Hnd total st Hfresh.
  - exists (trace st). cbn. rewrite Z.add_0_r, !app_nil_r.
    destruct st. split; reflexivity.
  - cbn [List.concat] in *. apply Forall_app in Hst. destruct Hst as [Hst1 Hst2].
    rewrite map_app in Hnd.
    pose proof (NoDup_app_remove_r _ _ Hnd) as Hnd1.
    pose proof (NoDup_app_remove_l _ _ Hnd) as Hnd2.
    pose proof (NoDup_app_disjoint _ _ Hnd) as Hdisj.
    cbn [load_all]. unfold bind at 1. unfold load_page, load_pulses.
    unfold bind at 1.
    rewrite (load_from_new pulses Hst1 Hnd1)
      by (intros r doc Hr Hdoc; apply Hfresh;
          [ apply in_or_app; left; exact Hr | exact Hdoc ]).
    unfold bind, log, ret, emit. cbn [net db trace].
    match goal with
    | |- context [load_all pages ?t ?s] =>
        destruct (IH Hst2 Hnd2 t s) as [tr [Htr Hup]]
    end.
    + cbn [db]. intros r doc Hr Hdoc. apply in_app_or in Hdoc.
      destruct Hdoc as [ Hdoc | Hdoc ].
      * apply Hfresh; [ apply in_or_app; right; exact Hr | exact Hdoc ].
      * apply in_map_iff in Hdoc. destruct Hdoc as [r' [<- Hr']].
        rewrite Forall_forall in Hst1. pose proof (Hst1 r' Hr') as Hs.
        apply storable_record in Hs. destruct Hs as [d' [-> _]].
        rewrite matches_id_document. apply pyval_eqb_neq.
        intros Heq. apply (Hdisj (raw_id (PDict d'))).
        -- apply in_map. exact Hr'.
        -- cbn [raw_id]. rewrite Heq. apply in_map. exact Hr.
    + exists tr. rewrite Htr. cbn [net db trace] in *. split.
      * rewrite map_app, length_app, <- app_assoc. f_equal. f_equal. lia.
      * rewrite Hup, !updates_app, updates_writes, map_app, app_nil_r.
        rewrite <- app_assoc. reflexivity.
Qed.

Lemma load_all_present stored :
  Forall (fun r => storable r = true) stored ->
  NoDup (map raw_id stored) ->
  forall pages total_upserts st,
    (forall r, In r (List.concat pages) -> In r stored) ->
    db st = map document stored ->
    exists tr,
      load_all pages total_upserts st =
      (Ret total_upserts, State (net st) (db st) tr)
      /\ updates tr = updates (trace st) ++ map write_of (List.concat pages).
Proof.
  intros Hst Hnd.
  induction pages as [ | pulses pages IH ]; intros total st Hin Hdb.
  - exists (trace st). cbn. rewrite app_nil_r. destruct st. split; reflexivity.
  - cbn [List.concat] in Hin.
    cbn [load_all]. unfold bind at 1. unfold load_page, load_pulses.
    unfold bind at 1.
    rewrite (load_from_present stored Hst Hnd pulses 0 st)
      by (try exact Hdb; intros r Hr; apply Hin; apply in_or_app; left; exact Hr).
    unfold bind, log, ret, emit. cbn [net db trace].
    match goal with
    | |- context [load_all pages ?t ?s] =>
        destruct (IH t s) as [tr [Htr Hup]]
    end.
    + intros r Hr. apply Hin. apply in_or_app. right. exact Hr.
    + exact Hdb.
    + exists tr. rewrite Htr. cbn [net db trace List.concat] in *. split.
      * rewrite Z.add_0_r. reflexivity.
      * rewrite Hup, !updates_app, updates_writes, map_app, app_nil_r.
        rewrite <- app_assoc. reflexivity.
Qed.

Lemma concat_length_uniform {A} (pages : list (list A)) k :
  Forall (fun p => List.length p = k) pages ->
  List.length (List.concat pages) = (List.length pages * k)%nat.
Proof.
  induction 1 as [ | p pages Hp _ IH ]; [ reflexivity | ].
  cbn [List.concat List.length]. rewrite length_app, Hp, IH. simpl. reflexivity.
Qed.

(** C3 (as amended).  Take [N] pages of [k] records each, every record a
    mapping whose identifier is truthy (not null and not [""], [0],
    [False] or an empty collection) and whose write the collection accepts
    (the identifier is no array and no mapping with dollar keys, every
    integer of the document fits eight bytes, no key holds a NUL), the
    identifiers pairwise different.
    Loading them into an empty collection returns [N * k] in total and
    leaves the normalized documents, in order.  Loading the same pages
    again returns [0] in total: every record is written once more, each
    write lands on the document already there, and the collection ends as
    it was. *)
Theorem load_twice_upserts_once pages N k st :
  List.length pages = N ->
  Forall (fun p => List.length p = k) pages ->
  Forall (fun r => storable r = true) (List.concat pages) ->
  NoDup (map raw_id (List.concat pages)) ->
  db st = [] ->
  exists st1 st2,
    load_all pages 0 st = (Ret (Z.of_nat N * Z.of_nat k), st1)
    /\ db st1 = map document (List.concat pages)
    /\ load_all pages 0 st1 = (Ret 0, st2)
    /\ db st2 = db st1
    /\ updates (trace st2) =
       updates (trace st1) ++ map write_of (List.concat pages).
Proof.
  intros HN Hk Hst Hnd Hdb.
  destruct (load_all_new pages Hst Hnd 0 st) as [tr1 [H1 _]].
  { rewrite Hdb. intros r doc _ []. }
  rewrite Hdb in H1. cbn [app] in H1.
  rewrite (concat_length_uniform pages k Hk), HN in H1.
  rewrite Z.add_0_l, Nat2Z.inj_mul in H1.
  destruct (load_all_present (List.concat pages) Hst Hnd pages 0
              (State (net st) (map document (List.concat pages)) tr1))
    as [tr2 [H2 Hup]]; [ auto | reflexivity | ].
  eexists. eexists. split; [ exact H1 | ].
  split; [ reflexivity | ]. split; [ exact H2 | ].
  split; [ reflexivity | exact Hup ].
Qed.

(** *** The paginator *)

Lemma range_first n : 1 <= n -> exists rest, range n = 0 :: rest.
Proof.
  intros H. unfold range.
  destruct (Z.to_nat n) as [ | m ] eqn:E; [ lia | ].
  simpl. eexists. reflexivity.
Qed.

Lemma fetch_first_success url retries backoff_factor st payload w' :
  1 <= retries ->
  requests_get url (net st) = (Some (Response 200 (Decoded payload)), w') ->
  fetch_with_retries url retries backoff_factor st =
  (Ret payload, State w' (db st) (trace st ++ [EvGet url])).
Proof.
  intros Hretries Hget. unfold fetch_with_retries.
  destruct (range_first retries Hretries) as [rest ->].
  cbn [fetch_attempts]. unfold bind, http_get. rewrite Hget. reflexivity.
Qed.

Lemma extract_iteration_page url page_count st d results w' :
  truthy url = true ->
  page_count < MAX_PAGES ->
  requests_get url (net st) = (Some (Response 200 (Decoded (PDict d))), w') ->
  dict_get "results" PNone d = PList results ->
  extract_iteration url page_count st =
  (Ret (Some results, GenSuspended d page_count),
   State w' (db st)
     (trace st ++ [EvLog INFO (MsgFetching (page_count + 1) url); EvGet url])).
Proof.
  intros Hurl Hpc Hget Hres. unfold extract_iteration.
  apply Z.ltb_lt in Hpc. rewrite Hurl, Hpc. cbn [andb].
  unfold bind at 1. unfold log. unfold bind at 1.
  rewrite (fetch_first_success url 3 2 _ (PDict d) w')
    by (try lia; exact Hget).
  rewrite Hres. unfold ret, emit. cbn [net db trace].
  rewrite <- app_assoc. reflexivity.
Qed.

Lemma extract_iteration_end url page_count st :
  truthy url && (page_count <? MAX_PAGES) = false ->
  extract_iteration url page_count st =
  (Ret (None, GenDone), emit (EvLog INFO (MsgStopped page_count)) st).
Proof. intros H. unfold extract_iteration. rewrite H. reflexivity. Qed.

(** However the server behaves, a generator yields no more pages than it
    has left. *)
Lemma collect_pages_bound n :
  forall g st,
    (pages_left g <= n)%nat ->
    (List.length (fst (fst (collect_pages g st))) <= pages_left g)%nat.
Proof.
  induction n as [ | n IH ]; intros g st Hn; rewrite collect_pages_step;
    destruct (gen_next g st) as [[[[pulses | ] g'] | e] st1] eqn:Hnext;
    try (cbn; lia);
    pose proof (gen_next_yield_decreases _ _ _ _ _ Hnext) as Hdec;
    [ lia | ].
  specialize (IH g' st1 ltac:(lia)).
  destruct (collect_pages g' st1) as [[pages e] st2]. cbn in *. lia.
Qed.

(** Against a server that always answers a valid page, a suspended
    generator yields every page it has left and ends. *)
Lemma collect_pages_all n :
  (forall url w, valid_page (fst (requests_get url w))) ->
  forall d page_count st,
    truthy (dict_get "next" PNone d) = true ->
    Z.of_nat n = MAX_PAGES - 1 - page_count ->
    exists pages st',
      collect_pages (GenSuspended d page_count) st = ((pages, None), st')
      /\ List.length pages = n.
Proof.
  intros Hserver.
  induction n as [ | n IH ]; intros d pc st Hnext Hn;
    rewrite collect_pages_step; cbn [gen_next].
  - rewrite extract_iteration_end.
    + eexists. eexists. split; reflexivity.
    + apply andb_false_iff. right. apply Z.ltb_ge. lia.
  - pose proof (Hserver (dict_get "next" PNone d)
                  (net (emit (EvLog INFO (MsgFetching (pc + 1 + 1)
                                (dict_get "next" PNone d))) st))) as Hv.
    cbn [net emit] in Hv.
    destruct (requests_get (dict_get "next" PNone d) (net st))
      as [r w'] eqn:Hget.
    destruct Hv as [d' [results [Hr [Hres Hnext']]]]. cbn [fst] in Hr.
    subst r.
    assert (Hpc : pc + 1 < MAX_PAGES) by lia.
    rewrite (extract_iteration_page _ _ _ d' results w' Hnext
               Hpc Hget Hres).
    match goal with
    | |- context [collect_pages _ ?s] =>
        destruct (IH d' (pc + 1) s Hnext' ltac:(lia))
          as [pages [st' [Hcollect Hlen]]]
    end.
    rewrite Hcollect. eexists. eexists. split; [ reflexivity | ].
    cbn [List.length]. rewrite Hlen. reflexivity.
Qed.

(** C4.  The pages [extract_pulses] yields are always at most [MAX_PAGES];
    and against a server that answers every request with a valid page
    carrying a continuation cursor, it yields exactly [MAX_PAGES] pages
    and then ends, without an exception. *)
Theorem pagination_stops_at_max_pages :
  (forall st,
      (List.length (fst (fst (extract_pulses st))) <= Z.to_nat MAX_PAGES)%nat)
  /\
  (BASE_URL <> "" ->
   (forall url w, valid_page (fst (requests_get url w))) ->
   forall st,
   exists pages st',
     extract_pulses st = ((pages, None), st')
     /\ Z.of_nat (List.length pages) = MAX_PAGES).
Proof.
  split.
  - intros st. unfold extract_pulses.
    apply (collect_pages_bound (pages_left GenStart)). apply Nat.le_refl.
  - intros Hbase Hserver st. unfold extract_pulses.
    rewrite collect_pages_step. cbn [gen_next].
    pose proof (Hserver (PStr BASE_URL) (net st)) as Hv.
    destruct (requests_get (PStr BASE_URL) (net st)) as [r w'] eqn:Hget.
    destruct Hv as [d [results [Hr [Hres Hnext]]]]. cbn [fst] in Hr.
    subst r.
    assert (Hurl : truthy (PStr BASE_URL) = true).
    { cbn [truthy]. apply negb_true_iff. apply String.eqb_neq. exact Hbase. }
    assert (Hpc : 0 < MAX_PAGES) by (unfold MAX_PAGES; lia).
    rewrite (extract_iteration_page _ _ _ d results w' Hurl
               Hpc Hget Hres).
    match goal with
    | |- context [collect_pages _ ?s] =>
        destruct (collect_pages_all 4 Hserver d 0 s Hnext
                    ltac:(unfold MAX_PAGES; lia))
          as [pages [st' [Hcollect Hlen]]]
    end.
    rewrite Hcollect. eexists. eexists. split; [ reflexivity | ].
    cbn [List.length]. rewrite Hlen. reflexivity.
Qed.

(** C6.  When the payload fetched for a page is a mapping whose
    [results] is missing or not a list, the generator ends there: it logs,
    raises nothing and yields nothing more.  The collection is as the
    pages before left it, and the run's loop ends normally with the count
    it had. *)
Theorem missing_results_stops_pagination
    g url page_count st d st1 total_upserts :
  gen_target g = Some (url, page_count) ->
  truthy url = true ->
  page_count < MAX_PAGES ->
  fetch_with_retries url 3 2
    (emit (EvLog INFO (MsgFetching (page_count + 1) url)) st)
  = (Ret (PDict d), st1) ->
  is_list (dict_get "results" PNone d) = false ->
  let st' :=
    emit (EvLog INFO (MsgStopped page_count))
      (emit (EvLog ERROR MsgResultsMissing) st1) in
  gen_next g st = (Ret (None, GenDone), st')
  /\ db st' = db st
  /\ collect_pages g st = (([], None), st')
  /\ for_pages g total_upserts st = (Ret total_upserts, st').
Proof.
  intros Hg Hurl Hpc Hfetch Hres st'.
  assert (Hnext : gen_next g st = (Ret (None, GenDone), st')).
  { assert (Hiter : extract_iteration url page_count st =
                    (Ret (None, GenDone), st')).
    { unfold extract_iteration. apply Z.ltb_lt in Hpc.
      rewrite Hurl, Hpc. cbn [andb].
      unfold bind at 1. unfold log. unfold bind at 1. rewrite Hfetch.
      destruct (dict_get "results" PNone d); try discriminate Hres;
        reflexivity. }
    destruct g as [ | data pc | ]; cbn in Hg; [ | | discriminate ];
      injection Hg as <- <-; exact Hiter. }
  split; [ exact Hnext | ]. split.
  - unfold fetch_with_retries in Hfetch.
    apply fetch_attempts_db in Hfetch. subst st'. cbn [db emit].
    rewrite Hfetch. reflexivity.
  - split.
    + rewrite collect_pages_step, Hnext. reflexivity.
    + rewrite for_pages_step, Hnext. reflexivity.
Qed.

(** C8.  When the server answers the first request with the page
    [{"results": [{"id": "p1", "name": "X"}], "next": null}], a run on an
    empty collection upserts exactly the document of the example and
    makes no second request, the cursor being absent.  In general a field
    that the raw record lacks comes out as the empty list when it is
    list-typed ([tags], [references]) and as [None] otherwise. *)
Theorem example_page_run :
  (forall st w',
      BASE_URL <> "" ->
      db st = [] ->
      requests_get (PStr BASE_URL) (net st)
      = (Some (Response 200 (Decoded example_page)), w') ->
      run_etl st =
      (Ret tt,
       State w' [example_document]
         (trace st
          ++ [ EvLog INFO (MsgFetching 1 (PStr BASE_URL));
               EvGet (PStr BASE_URL);
               EvUpdateOne (PStr "p1") example_document;
               EvLog INFO (MsgUpserted 1);
               EvLog INFO (MsgStopped 1);
               EvLog INFO (MsgFinished 1);
               EvClose;
               EvLog INFO MsgClosed ])))
  /\
  (forall d out raw,
      In (out, raw) normalized_shape ->
      lookup raw d = None ->
      exists transformed,
        transform_pulse (PDict d) = Ret transformed
        /\ lookup out transformed =
           Some (if list_typed raw then PList [] else PNone)).
Proof.
  split.
  - intros st w' Hbase Hdb Hget.
    assert (Hurl : truthy (PStr BASE_URL) = true).
    { cbn [truthy]. apply negb_true_iff. apply String.eqb_neq. exact Hbase. }
    assert (Hpc : 0 < MAX_PAGES) by (unfold MAX_PAGES; lia).
    unfold run_etl, try_finally. unfold bind at 1.
    rewrite for_pages_step. cbn [gen_next].
    rewrite (extract_iteration_page _ _ _ _ [example_record] w' Hurl
               Hpc Hget eq_refl).
    unfold load_page, load_pulses. unfold bind at 1.
    unfold example_record. rewrite load_from_record. cbv zeta.
    cbn [db]. rewrite Hdb.
    cbn -[for_pages Z.add].
    rewrite for_pages_step. cbn [gen_next].
    rewrite extract_iteration_end by reflexivity.
    cbn. unfold emit. cbn [net db trace].
    repeat rewrite <- app_assoc. reflexivity.
  - intros d out raw Hin Hraw.
    exists (document (PDict d)). split; [ reflexivity | ].
    cbn [document transform_pulse py_get rbind].
    cbn [normalized_shape In] in Hin.
    unfold dict_get.
    repeat (destruct Hin as [ Hin | Hin ];
            [ injection Hin as <- <-; rewrite Hraw; reflexivity | ]).
    destruct Hin.
Qed.

(** C2 (as amended).  For a raw record that is a mapping, the transform
    puts the raw [id] under [_id]; applied to its own result it finds no
    [id] there, so the second result has [_id] null and every other field
    as in the first.  From then on the transform changes nothing. *)
Theorem transform_twice_resets_id d :
  exists rest,
    transform_pulse (PDict d) = Ret (("_id", dict_get "id" PNone d) :: rest)
    /\ transform_twice (PDict d) = Ret (("_id", PNone) :: rest)
    /\ transform_pulse (PDict (("_id", PNone) :: rest))
       = Ret (("_id", PNone) :: rest).
Proof.
  eexists. split; [ reflexivity | ]. split; reflexivity.
Qed.

(** ** Further properties *)

(** *** The fetcher, beyond the first attempts *)








(** *** What a run costs *)

Lemma requests_made_app tr tr' :
  requests_made (tr ++ tr') = (requests_made tr + requests_made tr')%nat.
Proof. unfold requests_made. rewrite filter_app, length_app. reflexivity. Qed.

Lemma slept_app tr tr' : slept (tr ++ tr') = slept tr + slept tr'.
Proof.
  unfold slept. induction tr as [ | e tr IH ]; [ reflexivity | ].
  cbn [app fold_right]. rewrite IH. lia.
Qed.

Lemma backoff_total_nonneg backoff_factor attempts :
  0 <= backoff_factor -> 0 <= backoff_total backoff_factor attempts.
Proof.
  intros Hb. unfold backoff_total.
  induction attempts as [ | attempt rest IH ]; cbn [fold_right]; [ lia | ].
  pose proof (backoff_nonneg backoff_factor attempt Hb). lia.
Qed.

Lemma requests_made_cons e tr :
  requests_made (e :: tr) =
  ((if is_get e then 1 else 0) + requests_made tr)%nat.
Proof. unfold requests_made. cbn [filter]. destruct (is_get e); reflexivity. Qed.

Lemma slept_cons e tr : slept (e :: tr) = sleep_of e + slept tr.
Proof. reflexivity. Qed.

Lemma backoff_total_cons backoff_factor attempt rest :
  backoff_total backoff_factor (attempt :: rest) =
  backoff_factor * 2 ^ attempt + backoff_total backoff_factor rest.
Proof. reflexivity. Qed.

(** What one call of the fetcher adds to the trace: at most one request
    per attempt, and sleeps within the backoff schedule. *)
Lemma fetch_attempts_cost url retries backoff_factor attempts :
  forall st r st',
    fetch_attempts url retries backoff_factor attempts st = (r, st') ->
    exists new,
      trace st' = trace st ++ new
      /\ (requests_made new <= List.length attempts)%nat
      /\ (0 <= backoff_factor ->
          slept new <= backoff_total backoff_factor attempts).
Proof.
  induction attempts as [ | attempt rest IH ]; intros st r st'.
  - cbn. unfold fetch_failed, bind, log, ret, emit. cbn.
    intros H. injection H as _ <-. cbn [trace].
    eexists. split; [ reflexivity | ]. split; [ cbn; lia | cbn; lia ].
  - cbn [fetch_attempts]. unfold bind at 1. unfold http_get.
    destruct (requests_get url (net st)) as [o w'].
    set (wait := backoff_factor * 2 ^ attempt).
    assert (Hback : forall msg,
               (log WARNING msg ;;
                sleep wait ;;
                fetch_attempts url retries backoff_factor rest)
                 (State w' (db st) (trace st ++ [EvGet url])) = (r, st') ->
               exists new,
                 trace st' = trace st ++ new
                 /\ (requests_made new <= List.length (attempt :: rest))%nat
                 /\ (0 <= backoff_factor ->
                     slept new
                     <= backoff_total backoff_factor (attempt :: rest))).
    { intros msg. unfold bind, log, sleep, emit. cbn [net db trace].
      rewrite backoff_total_cons. fold wait.
      destruct (sleep_error wait) eqn:Hneg.
      - intros H. injection H as _ <-. cbn [trace].
        rewrite <- app_assoc. cbn [app]. eexists. split; [ reflexivity | ].
        rewrite !requests_made_cons, !slept_cons. cbn [is_get sleep_of].
        change (requests_made []) with 0%nat. change (slept []) with 0.
        split; [ cbn [List.length]; lia | ].
        intros Hb. pose proof (backoff_total_nonneg _ rest Hb).
        pose proof (backoff_nonneg backoff_factor attempt Hb) as Hw.
        fold wait in Hw. lia.
      - intros H. apply IH in H. destruct H as [new [Htr [Hreq Hsl]]].
        cbn [trace] in Htr. rewrite <- !app_assoc in Htr. cbn [app] in Htr.
        eexists. split; [ exact Htr | ].
        rewrite !requests_made_cons, !slept_cons. cbn [is_get sleep_of].
        split.
        + cbn [List.length]. lia.
        + intros Hb. specialize (Hsl Hb). lia. }
    assert (Hend : forall tail,
               requests_made tail = 0%nat -> slept tail = 0 ->
               st' = State w' (db st) ((trace st ++ [EvGet url]) ++ tail) ->
               exists new,
                 trace st' = trace st ++ new
                 /\ (requests_made new <= List.length (attempt :: rest))%nat
                 /\ (0 <= backoff_factor ->
                     slept new
                     <= backoff_total backoff_factor (attempt :: rest))).
    { intros tail Hreq Hsl ->. cbn [trace]. rewrite <- app_assoc.
      cbn [app]. rewrite backoff_total_cons. fold wait.
      eexists. split; [ reflexivity | ].
      rewrite requests_made_cons, slept_cons, Hreq, Hsl.
      cbn [is_get sleep_of]. split.
      - cbn [List.length]. lia.
      - intros Hb. pose proof (backoff_total_nonneg _ rest Hb).
        pose proof (backoff_nonneg backoff_factor attempt Hb) as Hw.
        fold wait in Hw. lia. }
    destruct o as [ resp | ]; [ | apply Hback ].
    destruct (status_code resp =? 200).
    + destruct (json resp).
      * unfold ret. intros H. injection H as _ <-.
        apply (Hend []); [ reflexivity | reflexivity | ].
        rewrite app_nil_r. reflexivity.
      * apply Hback.
      * unfold raise. intros H. injection H as _ <-.
        apply (Hend []); [ reflexivity | reflexivity | ].
        rewrite app_nil_r. reflexivity.
    + destruct (status_code resp =? 429).
      * apply Hback.
      * unfold fetch_failed, bind, log, ret, emit. cbn [net db trace].
        intros H. injection H as _ <-.
        apply (Hend [EvLog ERROR (MsgHttpError (status_code resp));
                     EvLog ERROR (MsgFailed retries)]);
          [ reflexivity | reflexivity | ].
        rewrite <- !app_assoc. reflexivity.
Qed.

(** X4.  Whatever the server answers and however the call ends, the
    fetcher makes at most [retries] requests, and with a non-negative
    backoff factor it sleeps no longer than the whole backoff schedule
    [backoff_factor * (2^0 + ... + 2^(retries-1))]. *)
Theorem fetch_stays_within_budget url retries backoff_factor st :
  (requests_made (trace (snd (fetch_with_retries url retries backoff_factor st)))
   <= requests_made (trace st) + Z.to_nat retries)%nat
  /\ (0 <= backoff_factor ->
      slept (trace (snd (fetch_with_retries url retries backoff_factor st)))
      <= slept (trace st) + backoff_total backoff_factor (range retries)).
Proof.
  unfold fetch_with_retries.
  destruct (fetch_attempts url retries backoff_factor (range retries) st)
    as [r st'] eqn:H.
  apply fetch_attempts_cost in H. destruct H as [new [Htr [Hreq Hsl]]].
  cbn [snd]. rewrite Htr, requests_made_app, slept_app.
  rewrite range_length in Hreq. split; [ lia | ].
  intros Hb. specialize (Hsl Hb). lia.
Qed.

(** A payload other than [None] was not bought with the last sleep of the
    schedule: the attempt that returned it did not sleep. *)
Lemma fetch_attempts_payload_cost url retries backoff_factor attempts :
  0 <= backoff_factor ->
  forall st v st',
    fetch_attempts url retries backoff_factor attempts st = (Ret v, st') ->
    v <> PNone ->
    exists new,
      trace st' = trace st ++ new
      /\ slept new <= backoff_total backoff_factor (removelast attempts).
Proof.
  intros Hb.
  induction attempts as [ | attempt rest IH ]; intros st v st'.
  - cbn. unfold fetch_failed, bind, log, ret. cbn.
    intros H Hv. injection H as <- _. contradiction.
  - cbn [fetch_attempts]. unfold bind at 1. unfold http_get.
    destruct (requests_get url (net st)) as [o w'].
    set (wait := backoff_factor * 2 ^ attempt).
    pose proof (backoff_nonneg backoff_factor attempt Hb) as Hw.
    fold wait in Hw.
    assert (Hback : forall msg,
               (log WARNING msg ;;
                sleep wait ;;
                fetch_attempts url retries backoff_factor rest)
                 (State w' (db st) (trace st ++ [EvGet url])) = (Ret v, st') ->
               v <> PNone ->
               exists new,
                 trace st' = trace st ++ new
                 /\ slept new
                    <= backoff_total backoff_factor (removelast (attempt :: rest))).
    { intros msg. unfold bind, log, sleep, emit. cbn [net db trace].
      destruct (sleep_error wait); [ discriminate | ].
      intros H Hv.
      destruct rest as [ | next rest' ].
      - cbn in H. unfold fetch_failed, bind, log, ret in H. cbn in H.
        injection H as <- _. contradiction.
      - apply IH in H; [ | exact Hv ]. destruct H as [new [Htr Hsl]].
        cbn [trace] in Htr. rewrite <- !app_assoc in Htr. cbn [app] in Htr.
        eexists. split; [ exact Htr | ].
        change (removelast (attempt :: next :: rest'))
          with (attempt :: removelast (next :: rest')).
        rewrite backoff_total_cons, !slept_cons. cbn [sleep_of].
        fold wait. lia. }
    assert (Hnow : st' = State w' (db st) (trace st ++ [EvGet url]) ->
               exists new,
                 trace st' = trace st ++ new
                 /\ slept new
                    <= backoff_total backoff_factor (removelast (attempt :: rest))).
    { intros ->. cbn [trace]. eexists. split; [ reflexivity | ].
      change (slept [EvGet url]) with (0 + 0).
      pose proof (backoff_total_nonneg backoff_factor
                    (removelast (attempt :: rest)) Hb). lia. }
    destruct o as [ resp | ]; [ | apply Hback ].
    destruct (status_code resp =? 200).
    + destruct (json resp).
      * unfold ret. intros H _. injection H as _ <-. apply Hnow. reflexivity.
      * apply Hback.
      * unfold raise. discriminate.
    + destruct (status_code resp =? 429).
      * apply Hback.
      * unfold fetch_failed, bind, log, ret, emit. cbn [net db trace].
        intros H Hv. injection H as <- _. contradiction.
Qed.

Lemma spent_refl (st : state) : spent st st 0 0.
Proof. unfold spent. split; lia. Qed.

Lemma spent_trans (st st1 st2 : state) g1 s1 g2 s2 :
  spent st st1 g1 s1 -> spent st1 st2 g2 s2 ->
  spent st st2 (g1 + g2) (s1 + s2).
Proof. unfold spent. intros [H1 H2] [H3 H4]. split; lia. Qed.

Lemma spent_weaken (st st' : state) g s g' s' :
  spent st st' g s -> (g <= g')%nat -> s <= s' -> spent st st' g' s'.
Proof. unfold spent. intros [H1 H2] Hg Hs. split; lia. Qed.

Lemma spent_trace (st st' : state) new g s :
  trace st' = trace st ++ new ->
  (requests_made new <= g)%nat -> slept new <= s ->
  spent st st' g s.
Proof.
  unfold spent. intros -> Hg Hs.
  rewrite requests_made_app, slept_app. split; lia.
Qed.

(** One turn of the generator: at most three requests and fourteen
    seconds; six seconds when it yields a page; nothing when the [while]
    test fails. *)
Lemma extract_iteration_cost url page_count st r st1 :
  extract_iteration url page_count st = (r, st1) ->
  spent st st1 3 14
  /\ (forall pulses g', r = Ret (Some pulses, g') -> spent st st1 3 6)
  /\ (truthy url && (page_count <? MAX_PAGES) = false -> spent st st1 0 0).
Proof.
  unfold extract_iteration.
  destruct (truthy url && (page_count <? MAX_PAGES)).
  - unfold bind at 1. unfold log.
    set (st0 := emit (EvLog INFO (MsgFetching (page_count + 1) url)) st).
    unfold bind at 1.
    destruct (fetch_with_retries url 3 2 st0) as [rf sf] eqn:Hfetch.
    unfold fetch_with_retries in Hfetch.
    pose proof (fetch_attempts_cost _ _ _ _ _ _ _ Hfetch)
      as [new [Htr [Hreq Hsl]]].
    specialize (Hsl ltac:(lia)).
    change (backoff_total 2 (range 3)) with 14 in Hsl.
    change (List.length (range 3)) with 3%nat in Hreq.
    assert (Hbase : forall tail,
               requests_made tail = 0%nat -> slept tail = 0 ->
               forall s, trace s = trace sf ++ tail -> spent st s 3 14).
    { intros tail Hr0 Hs0 s Hs.
      apply (spent_trace st s
               ([EvLog INFO (MsgFetching (page_count + 1) url)] ++ new ++ tail)).
      - rewrite Hs, Htr. subst st0. unfold emit. cbn [trace].
        rewrite <- !app_assoc. reflexivity.
      - rewrite !requests_made_app, Hr0.
        change (requests_made [EvLog INFO (MsgFetching (page_count + 1) url)])
          with 0%nat. lia.
      - rewrite !slept_app, Hs0.
        change (slept [EvLog INFO (MsgFetching (page_count + 1) url)])
          with (0 + 0). lia. }
    destruct rf as [ data | e ].
    + destruct data as [ | b | z | s | items | d ];
        try (unfold stopped, bind, log, ret, emit; cbn [net db trace];
             intros H; injection H as <- <-;
             split; [ eapply Hbase;
                      [ | | cbn [trace]; rewrite <- app_assoc; reflexivity ];
                      reflexivity | ];
             split; [ discriminate | discriminate ]).
      destruct (dict_get "results" PNone d) as [ | b | z | s | results | d' ];
        try (unfold stopped, bind, log, ret, emit; cbn [net db trace];
             intros H; injection H as <- <-;
             split; [ eapply Hbase;
                      [ | | cbn [trace]; rewrite <- app_assoc; reflexivity ];
                      reflexivity | ];
             split; [ discriminate | discriminate ]).
      unfold ret. intros H. injection H as <- <-.
      split; [ apply (Hbase []); [ reflexivity | reflexivity | ];
               rewrite app_nil_r; reflexivity | ].
      split; [ | discriminate ].
      intros _ _ _.
      apply (fetch_attempts_payload_cost url 3 2 (range 3) ltac:(lia)) in Hfetch;
        [ | discriminate ].
      destruct Hfetch as [new' [Htr' Hsl']].
      change (backoff_total 2 (removelast (range 3))) with 6 in Hsl'.
      assert (new' = new) by (rewrite Htr in Htr'; apply app_inv_head in Htr';
                              symmetry; exact Htr').
      subst new'.
      apply (spent_trace st sf
               ([EvLog INFO (MsgFetching (page_count + 1) url)] ++ new)).
      * rewrite Htr. subst st0. unfold emit. cbn [trace].
        rewrite <- !app_assoc. reflexivity.
      * rewrite requests_made_app.
        change (requests_made [EvLog INFO (MsgFetching (page_count + 1) url)])
          with 0%nat. lia.
      * rewrite slept_app.
        change (slept [EvLog INFO (MsgFetching (page_count + 1) url)])
          with (0 + 0). lia.
    + intros H. injection H as <- <-.
      split; [ apply (Hbase []); [ reflexivity | reflexivity | ];
               rewrite app_nil_r; reflexivity | ].
      split; [ discriminate | discriminate ].
  - unfold stopped, bind, log, ret, emit. intros H. injection H as <- <-.
    assert (H0 : spent st
                   (State (net st) (db st)
                      (trace st ++ [EvLog INFO (MsgStopped page_count)])) 0 0).
    { apply (spent_trace _ _ [EvLog INFO (MsgStopped page_count)]);
        [ reflexivity | cbn; lia | cbn; lia ]. }
    split; [ apply (spent_weaken _ _ _ _ 3%nat 14 H0); lia | ].
    split; [ discriminate | intros _; exact H0 ].
Qed.

Lemma gen_next_cost g st r st1 :
  gen_next g st = (r, st1) ->
  spent st st1 3 14
  /\ (forall pulses g', r = Ret (Some pulses, g') -> spent st st1 3 6)
  /\ (pages_left g = 0%nat -> spent st st1 0 0).
Proof.
  destruct g as [ | d pc | ]; cbn [gen_next]; intros H.
  - apply extract_iteration_cost in H. destruct H as [H1 [H2 _]].
    split; [ exact H1 | ]. split; [ exact H2 | ].
    unfold pages_left, MAX_PAGES. lia.
  - apply extract_iteration_cost in H. destruct H as [H1 [H2 H3]].
    split; [ exact H1 | ]. split; [ exact H2 | ].
    unfold pages_left. intros Hz. apply H3.
    apply andb_false_iff. right. apply Z.ltb_ge. lia.
  - unfold ret in H. injection H as <- <-.
    split; [ apply (spent_weaken _ _ _ _ 3%nat 14 (spent_refl st)); lia | ].
    split; [ discriminate | intros _; apply spent_refl ].
Qed.

(** The loader makes no request and never sleeps. *)
Lemma load_from_cost pulses :
  forall upserts st, spent st (snd (load_from pulses upserts st)) 0 0.
Proof.
  induction pulses as [ | pulse rest IH ]; intros upserts st.
  - apply spent_refl.
  - destruct pulse as [ | b | z | s | items | d ]; try apply spent_refl.
    rewrite load_from_record. cbv zeta.
    destruct (truthy _).
    + destruct (write_error _ _); [ apply spent_refl | ].
      destruct (coll_upsert _ _ _) as [u c].
      match goal with
      | |- context [State (net st) c ?tr] =>
          assert (Hstep : spent st (State (net st) c tr) 0 0)
            by (apply (spent_trace _ _ [EvUpdateOne (dict_get "id" PNone d)
                                          (document (PDict d))]);
                [ reflexivity | cbn; lia | cbn; lia ])
      end.
      destruct u;
        match goal with
        | |- spent st (snd (load_from rest ?n ?s)) 0 0 =>
            exact (spent_trans _ _ _ _ _ _ _ Hstep (IH n s))
        end.
    + assert (Hstep : spent st (emit (EvLog WARNING MsgSkipping) st) 0 0)
        by (apply (spent_trace _ _ [EvLog WARNING MsgSkipping]);
            [ reflexivity | cbn; lia | cbn; lia ]).
      exact (spent_trans _ _ _ _ _ _ _ Hstep (IH _ _)).
Qed.

(** What a load adds to the trace holds no request. *)
Lemma load_from_trace_requests pulses :
  forall upserts st,
  exists new,
    trace (snd (load_from pulses upserts st)) = trace st ++ new
    /\ requests_made new = 0%nat.
Proof.
  induction pulses as [ | pulse rest IH ]; intros upserts st.
  - exists []. cbn. rewrite app_nil_r. split; reflexivity.
  - destruct pulse as [ | b | z | s | items | d ];
      try (exists []; cbn; rewrite app_nil_r; split; reflexivity).
    rewrite load_from_record. cbv zeta.
    destruct (truthy _).
    + destruct (write_error _ _);
        [ exists []; cbn; rewrite app_nil_r; split; reflexivity | ].
      destruct (coll_upsert _ _ _) as [u c].
      destruct u;
        match goal with
        | |- context [load_from rest ?n ?s] =>
            destruct (IH n s) as [new [Htr Hreq]]
        end;
        rewrite Htr; cbn [trace]; rewrite <- app_assoc;
        eexists; (split; [ reflexivity | ]);
        rewrite requests_made_app, Hreq; reflexivity.
    + destruct (IH upserts (emit (EvLog WARNING MsgSkipping) st))
        as [new [Htr Hreq]].
      rewrite Htr. unfold emit. cbn [trace]. rewrite <- app_assoc.
      eexists. split; [ reflexivity | ].
      rewrite requests_made_app, Hreq. reflexivity.
Qed.

Lemma load_page_cost pulses total_upserts st :
  spent st (snd (load_page pulses total_upserts st)) 0 0.
Proof.
  unfold load_page, load_pulses. unfold bind at 1.
  pose proof (load_from_cost pulses 0 st) as Hload.
  destruct (load_from pulses 0 st) as [[upserts | e] st1]; cbn [snd] in *;
    [ | exact Hload ].
  unfold bind, log, ret. cbn [snd].
  assert (Hstep : spent st1 (emit (EvLog INFO (MsgUpserted upserts)) st1) 0 0)
    by (apply (spent_trace _ _ [EvLog INFO (MsgUpserted upserts)]);
        [ reflexivity | cbn; lia | cbn; lia ]).
  exact (spent_trans _ _ _ _ _ _ _ Hload Hstep).
Qed.

Lemma for_pages_cost n :
  forall g total_upserts st,
    (pages_left g <= n)%nat ->
    spent st (snd (for_pages g total_upserts st))
      (3 * pages_left g) (sleep_budget (pages_left g)).
Proof.
  induction n as [ | n IH ]; intros g total st Hn; rewrite for_pages_step;
    destruct (gen_next g st) as [r st1] eqn:Hnext;
    pose proof (gen_next_cost _ _ _ _ Hnext) as [Hc [Hy Hz]];
    destruct r as [[[pulses | ] g'] | e]; cbn [snd].
  - pose proof (gen_next_yield_decreases _ _ _ _ _ Hnext). lia.
  - replace (pages_left g) with 0%nat in * by lia. apply Hz. reflexivity.
  - replace (pages_left g) with 0%nat in * by lia. apply Hz. reflexivity.
  - pose proof (gen_next_yield_decreases _ _ _ _ _ Hnext) as Hdec.
    specialize (Hy pulses g' eq_refl).
    pose proof (load_page_cost pulses total st1) as Hload.
    destruct (load_page pulses total st1) as [[total' | e] st2];
      cbn [snd] in *.
    + specialize (IH g' total' st2 ltac:(lia)).
      pose proof (spent_trans _ _ _ _ _ _ _
                    (spent_trans _ _ _ _ _ _ _ Hy Hload) IH) as Hall.
      apply (spent_weaken _ _ _ _ _ _ Hall); [ lia | ].
      destruct (pages_left g) as [ | m ]; [ lia | ].
      destruct (pages_left g') as [ | k ]; cbn [sleep_budget]; lia.
    + pose proof (spent_trans _ _ _ _ _ _ _ Hy Hload) as Hall.
      apply (spent_weaken _ _ _ _ _ _ Hall); [ lia | ].
      destruct (pages_left g) as [ | m ]; [ lia | ].
      cbn [sleep_budget]. lia.
  - destruct (pages_left g) as [ | m ] eqn:Hpl; [ apply Hz; reflexivity | ].
    apply (spent_weaken _ _ _ _ _ _ Hc); [ lia | cbn [sleep_budget]; lia ].
  - destruct (pages_left g) as [ | m ] eqn:Hpl; [ apply Hz; reflexivity | ].
    apply (spent_weaken _ _ _ _ _ _ Hc); [ lia | cbn [sleep_budget]; lia ].
Qed.

(** X5.  Whatever the server does, one run makes at most
    [3 * MAX_PAGES = 15] requests and sleeps at most
    [14 + 6 * (MAX_PAGES - 1) = 38] seconds between them. *)
Theorem run_stays_within_budget st :
  (requests_made (trace (snd (run_etl st)))
   <= requests_made (trace st) + 3 * Z.to_nat MAX_PAGES)%nat
  /\ slept (trace (snd (run_etl st)))
     <= slept (trace st) + (14 + 6 * (MAX_PAGES - 1)).
Proof.
  pose proof (for_pages_cost (pages_left GenStart) GenStart 0 st
                (Nat.le_refl _)) as Hloop.
  change (pages_left GenStart) with 5%nat in Hloop.
  change (sleep_budget 5) with 38 in Hloop.
  unfold run_etl, try_finally, bind, log, client_close, emit.
  destruct (for_pages GenStart 0 st) as [[total | e] st1]; cbn [snd] in Hloop;
    cbn [net db trace snd];
    destruct Hloop as [Hreq Hsl];
    rewrite ?requests_made_app, ?slept_app;
    change (Z.to_nat MAX_PAGES) with 5%nat;
    change (14 + 6 * (MAX_PAGES - 1)) with 38;
    cbn [requests_made filter is_get List.length slept fold_right sleep_of];
    split; lia.
Qed.

(** *** Each half keeps to its side *)

Lemma extract_iteration_db url page_count st r st1 :
  extract_iteration url page_count st = (r, st1) -> db st1 = db st.
Proof.
  unfold extract_iteration.
  destruct (truthy url && (page_count <? MAX_PAGES)).
  - unfold bind at 1. unfold log. unfold bind at 1.
    destruct (fetch_with_retries url 3 2 _) as [rf sf] eqn:Hfetch.
    unfold fetch_with_retries in Hfetch. apply fetch_attempts_db in Hfetch.
    cbn [db emit] in Hfetch.
    destruct rf as [ data | e ].
    + destruct data as [ | b | z | s | items | d ];
        try (unfold stopped, bind, log, ret, emit; cbn [net db trace];
             intros H; injection H as _ <-; exact Hfetch).
      destruct (dict_get "results" PNone d);
        unfold stopped, bind, log, ret, emit; cbn [net db trace];
        intros H; injection H as _ <-; exact Hfetch.
    + intros H. injection H as _ <-. exact Hfetch.
  - unfold stopped, bind, log, ret, emit. intros H. injection H as _ <-.
    reflexivity.
Qed.

Lemma gen_next_db g st r st1 : gen_next g st = (r, st1) -> db st1 = db st.
Proof.
  destruct g as [ | d pc | ]; cbn [gen_next].
  - apply extract_iteration_db.
  - apply extract_iteration_db.
  - unfold ret. intros H. injection H as _ <-. reflexivity.
Qed.

Lemma collect_pages_db n :
  forall g st, (pages_left g <= n)%nat -> db (snd (collect_pages g st)) = db st.
Proof.
  induction n as [ | n IH ]; intros g st Hn; rewrite collect_pages_step;
    destruct (gen_next g st) as [[[[pulses | ] g'] | e] st1] eqn:Hnext;
    pose proof (gen_next_db _ _ _ _ Hnext) as Hdb;
    try exact Hdb;
    pose proof (gen_next_yield_decreases _ _ _ _ _ Hnext) as Hdec;
    [ lia | ].
  specialize (IH g' st1 ltac:(lia)).
  destruct (collect_pages g' st1) as [[pages e] st2]. cbn [snd] in *.
  rewrite IH. exact Hdb.
Qed.

Lemma load_from_net pulses :
  forall upserts st, net (snd (load_from pulses upserts st)) = net st.
Proof.
  induction pulses as [ | pulse rest IH ]; intros upserts st; [ reflexivity | ].
  destruct pulse as [ | b | z | s | items | d ]; try reflexivity.
  rewrite load_from_record. cbv zeta.
  destruct (truthy _).
  - destruct (write_error _ _); [ reflexivity | ].
    destruct (coll_upsert _ _ _) as [u c].
    destruct u; rewrite IH; reflexivity.
  - rewrite IH. reflexivity.
Qed.

(** X6.  Extraction and loading keep to their sides: iterating the
    generator to its end leaves the collection as it was, and a load leaves
    the server as it was and adds no request to the trace. *)
Theorem extraction_reads_loading_writes :
  (forall st, db (snd (extract_pulses st)) = db st)
  /\
  (forall pulses st,
      net (snd (load_pulses pulses st)) = net st
      /\ requests_made (trace (snd (load_pulses pulses st)))
         = requests_made (trace st)).
Proof.
  split.
  - intros st. unfold extract_pulses.
    apply (collect_pages_db (pages_left GenStart)). apply Nat.le_refl.
  - intros pulses st. unfold load_pulses. split.
    + apply load_from_net.
    + pose proof (load_from_trace_requests pulses 0 st) as [new [Htr Hreq]].
      rewrite Htr, requests_made_app, Hreq. lia.
Qed.

(** *** The paginator's other exits *)

(** X7.  When the fetcher hands back anything but a mapping, the [None] of
    a failed fetch or a payload that is a list, a string, a number or
    null, the generator logs the invalid structure and ends there: it
    raises nothing and yields nothing more, the collection is as it was and
    the run's loop ends normally with the count it had. *)
Theorem non_mapping_payload_stops_pagination
    g url page_count st data st1 total_upserts :
  gen_target g = Some (url, page_count) ->
  truthy url = true ->
  page_count < MAX_PAGES ->
  fetch_with_retries url 3 2
    (emit (EvLog INFO (MsgFetching (page_count + 1) url)) st)
  = (Ret data, st1) ->
  is_record data = false ->
  let st' :=
    emit (EvLog INFO (MsgStopped page_count))
      (emit (EvLog ERROR MsgInvalidStructure) st1) in
  gen_next g st = (Ret (None, GenDone), st')
  /\ db st' = db st
  /\ collect_pages g st = (([], None), st')
  /\ for_pages g total_upserts st = (Ret total_upserts, st').
Proof.
  intros Hg Hurl Hpc Hfetch Hdata st'.
  assert (Hnext : gen_next g st = (Ret (None, GenDone), st')).
  { assert (Hiter : extract_iteration url page_count st =
                    (Ret (None, GenDone), st')).
    { unfold extract_iteration. apply Z.ltb_lt in Hpc.
      rewrite Hurl, Hpc. cbn [andb].
      unfold bind at 1. unfold log. unfold bind at 1. rewrite Hfetch.
      destruct data; try discriminate Hdata; reflexivity. }
    destruct g as [ | d pc | ]; cbn in Hg; [ | | discriminate ];
      injection Hg as <- <-; exact Hiter. }
  split; [ exact Hnext | ]. split.
  - apply gen_next_db in Hnext. exact Hnext.
  - split.
    + rewrite collect_pages_step, Hnext. reflexivity.
    + rewrite for_pages_step, Hnext. reflexivity.
Qed.

(** X8.  A page whose [results] is the empty list is a page like any
    other: it is yielded, the load counts nothing and writes nothing, and
    the run goes on from the suspended generator with the total
    unchanged. *)
Theorem empty_page_continues g url page_count st d w' total_upserts :
  gen_target g = Some (url, page_count) ->
  truthy url = true ->
  page_count < MAX_PAGES ->
  requests_get url (net st) = (Some (Response 200 (Decoded (PDict d))), w') ->
  dict_get "results" PNone d = PList [] ->
  for_pages g total_upserts st =
  for_pages (GenSuspended d page_count) total_upserts
    (State w' (db st)
       (trace st
        ++ [ EvLog INFO (MsgFetching (page_count + 1) url);
             EvGet url;
             EvLog INFO (MsgUpserted 0) ])).
Proof.
  intros Hg Hurl Hpc Hget Hres.
  assert (Hnext : gen_next g st =
                  (Ret (Some [], GenSuspended d page_count),
                   State w' (db st)
                     (trace st
                      ++ [ EvLog INFO (MsgFetching (page_count + 1) url);
                           EvGet url ]))).
  { destruct g as [ | d0 pc | ]; cbn in Hg; [ | | discriminate ];
      injection Hg as <- <-; cbn [gen_next];
      apply extract_iteration_page; assumption. }
  rewrite for_pages_step, Hnext.
  unfold load_page, load_pulses, bind, log, ret, emit.
  cbn [load_from]. unfold ret. cbn [net db trace].
  rewrite Z.add_0_r, <- app_assoc. reflexivity.
Qed.

Lemma fetch_first_request url retries backoff_factor st :
  1 <= retries ->
  exists more,
    trace (snd (fetch_with_retries url retries backoff_factor st))
    = trace st ++ EvGet url :: more.
Proof.
  intros Hretries. unfold fetch_with_retries.
  destruct (range_first retries Hretries) as [rest ->].
  cbn [fetch_attempts]. unfold bind at 1. unfold http_get.
  destruct (requests_get url (net st)) as [o w'].
  assert (Hback : forall msg,
             exists more,
               trace (snd ((log WARNING msg ;;
                            sleep (backoff_factor * 2 ^ 0) ;;
                            fetch_attempts url retries backoff_factor rest)
                             (State w' (db st) (trace st ++ [EvGet url]))))
               = trace st ++ EvGet url :: more).
  { intros msg. unfold bind, log, sleep, emit. cbn [net db trace].
    destruct (sleep_error _).
    - cbn [snd trace]. rewrite <- app_assoc. eexists. reflexivity.
    - match goal with
      | |- context [fetch_attempts url retries backoff_factor rest ?s] =>
          destruct (fetch_attempts url retries backoff_factor rest s)
            as [r s'] eqn:H
      end.
      apply fetch_attempts_cost in H. destruct H as [new [Htr _]].
      cbn [snd]. rewrite Htr. cbn [trace]. rewrite <- !app_assoc.
      eexists. reflexivity. }
  destruct o as [ resp | ]; [ | apply Hback ].
  destruct (status_code resp =? 200).
  - destruct (json resp).
    + exists []. reflexivity.
    + apply Hback.
    + exists []. reflexivity.
  - destruct (status_code resp =? 429).
    + apply Hback.
    + unfold fetch_failed, bind, log, ret, emit. cbn [net db trace snd].
      rewrite <- !app_assoc. eexists. reflexivity.
Qed.

(** X9.  The generator goes where the cursor points.  When the page it
    yielded last has a falsy [next] (absent, null or empty), resuming it
    ends the iteration without any request; when [next] is truthy and the
    ceiling is not reached, the first thing it does is request that
    address. *)
Theorem pagination_follows_cursor d page_count st :
  (truthy (dict_get "next" PNone d) = false ->
   gen_next (GenSuspended d page_count) st =
   (Ret (None, GenDone), emit (EvLog INFO (MsgStopped (page_count + 1))) st))
  /\
  (truthy (dict_get "next" PNone d) = true ->
   page_count + 1 < MAX_PAGES ->
   exists more,
     trace (snd (gen_next (GenSuspended d page_count) st)) =
     trace st
     ++ EvLog INFO (MsgFetching (page_count + 1 + 1) (dict_get "next" PNone d))
     :: EvGet (dict_get "next" PNone d)
     :: more).
Proof.
  split.
  - intros Hnext. cbn [gen_next]. apply extract_iteration_end.
    rewrite Hnext. reflexivity.
  - intros Hnext Hpc. cbn [gen_next]. unfold extract_iteration.
    apply Z.ltb_lt in Hpc. rewrite Hnext, Hpc. cbn [andb].
    unfold bind at 1. unfold log.
    set (st0 := emit (EvLog INFO (MsgFetching (page_count + 1 + 1)
                                    (dict_get "next" PNone d))) st).
    destruct (fetch_first_request (dict_get "next" PNone d) 3 2 st0
                ltac:(lia)) as [more Hmore].
    unfold bind at 1.
    destruct (fetch_with_retries (dict_get "next" PNone d) 3 2 st0)
      as [rf sf]. cbn [snd] in Hmore.
    assert (Hsf : trace sf =
                  trace st
                  ++ EvLog INFO (MsgFetching (page_count + 1 + 1)
                                   (dict_get "next" PNone d))
                  :: EvGet (dict_get "next" PNone d) :: more).
    { rewrite Hmore. subst st0. unfold emit. cbn [trace].
      rewrite <- app_assoc. reflexivity. }
    destruct rf as [ data | e ]; [ | exists more; exact Hsf ].
    destruct data as [ | b | z | s | items | d' ];
      try (unfold stopped, bind, log, ret, emit; cbn [net db trace snd];
           rewrite Hsf, <- !app_assoc; cbn [app];
           eexists; reflexivity).
    destruct (dict_get "results" PNone d');
      try (unfold stopped, bind, log, ret, emit; cbn [net db trace snd];
           rewrite Hsf, <- !app_assoc; cbn [app];
           eexists; reflexivity).
    unfold ret. cbn [snd]. exists more. exact Hsf.
Qed.

(** *** The loader and the collection *)

Lemma coll_upsert_length id fields c :
  (fst (coll_upsert id fields c) = PNone
   /\ List.length (snd (coll_upsert id fields c)) = List.length c)
  \/
  (fst (coll_upsert id fields c) = id
   /\ List.length (snd (coll_upsert id fields c)) = S (List.length c)).
Proof.
  induction c as [ | doc c IH ]; cbn [coll_upsert].
  - right. split; reflexivity.
  - destruct (matches_id id doc).
    + left. split; reflexivity.
    + destruct (coll_upsert id fields c) as [u c'']. cbn [fst snd] in *.
      destruct IH as [[Hu Hlen] | [Hu Hlen]]; [ left | right ];
        (split; [ exact Hu | cbn [List.length]; rewrite Hlen; reflexivity ]).
Qed.

Lemma load_from_growth pulses :
  forall upserts st m st',
    load_from pulses upserts st = (Ret m, st') ->
    upserts <= m <= upserts + Z.of_nat (List.length pulses)
    /\ Z.of_nat (List.length (db st'))
       = Z.of_nat (List.length (db st)) + (m - upserts).
Proof.
  induction pulses as [ | pulse rest IH ]; intros upserts st m st'.
  - cbn. unfold ret. intros H. injection H as <- <-. cbn. lia.
  - destruct pulse as [ | b | z | s | items | d ]; try discriminate.
    rewrite load_from_record. cbv zeta.
    destruct (truthy (dict_get "id" PNone d)) eqn:Hid.
    + destruct (write_error _ _); [ discriminate | ].
      pose proof (coll_upsert_length (dict_get "id" PNone d)
                    (document (PDict d)) (db st)) as Hlen.
      destruct (coll_upsert _ _ (db st)) as [u c]. cbn [fst snd] in Hlen.
      destruct Hlen as [[-> Hlen] | [-> Hlen]].
      * intros H. apply IH in H. cbn [db List.length] in *. lia.
      * assert (Hgo : forall st0,
                   match dict_get "id" PNone d with
                   | PNone => load_from rest upserts st0
                   | _ => load_from rest (upserts + 1) st0
                   end = load_from rest (upserts + 1) st0).
        { intros st0. destruct (dict_get "id" PNone d);
            [ discriminate | reflexivity .. ]. }
        rewrite Hgo. intros H. apply IH in H.
        cbn [db List.length] in *. lia.
    + intros H. apply IH in H. unfold emit in H.
      cbn [db List.length] in *. lia.
Qed.

(** X10.  The count a load returns is the number of documents it added:
    the collection grows by exactly that many, and the count is between
    [0] and the size of the batch. *)
Theorem load_count_is_collection_growth pulses st m st' :
  load_pulses pulses st = (Ret m, st') ->
  0 <= m <= Z.of_nat (List.length pulses)
  /\ Z.of_nat (List.length (db st')) = Z.of_nat (List.length (db st)) + m.
Proof.
  unfold load_pulses. intros H. apply load_from_growth in H. lia.
Qed.

Lemma coll_upsert_other id fields c doc :
  matches_id id doc = false ->
  In doc c ->
  In doc (snd (coll_upsert id fields c)).
Proof.
  intros Hdoc. induction c as [ | doc0 c IH ]; [ intros [] | ].
  cbn [coll_upsert]. intros Hin.
  destruct (matches_id id doc0) eqn:Hm.
  - destruct Hin as [ -> | Hin ]; [ congruence | right; exact Hin ].
  - destruct (coll_upsert id fields c) as [u c'']. cbn [snd] in *.
    destruct Hin as [ -> | Hin ]; [ left; reflexivity | right; auto ].
Qed.

Lemma load_from_other pulses doc :
  (forall r, In r pulses -> matches_id (raw_id r) doc = false) ->
  forall upserts st,
    In doc (db st) ->
    In doc (db (snd (load_from pulses upserts st))).
Proof.
  induction pulses as [ | pulse rest IH ]; intros Hother upserts st Hin;
    [ exact Hin | ].
  assert (Hrest : forall r, In r rest -> matches_id (raw_id r) doc = false)
    by (intros r Hr; apply Hother; right; exact Hr).
  destruct pulse as [ | b | z | s | items | d ]; try exact Hin.
  rewrite load_from_record. cbv zeta.
  destruct (truthy _).
  - destruct (write_error _ _); [ exact Hin | ].
    pose proof (coll_upsert_other (dict_get "id" PNone d)
                  (document (PDict d)) (db st) doc
                  (Hother (PDict d) (or_introl eq_refl)) Hin) as Hkeep.
    destruct (coll_upsert _ _ (db st)) as [u c]. cbn [snd] in Hkeep.
    destruct u; apply (IH Hrest); exact Hkeep.
  - apply (IH Hrest). exact Hin.
Qed.

(** X11.  A load only touches the documents its records name: a document
    whose [_id] equals the identifier of no record of the batch is still in
    the collection afterwards, unchanged, however the load ends. *)
Theorem load_leaves_other_documents pulses doc st :
  In doc (db st) ->
  (forall r, In r pulses -> matches_id (raw_id r) doc = false) ->
  In doc (db (snd (load_pulses pulses st))).
Proof.
  intros Hin Hother. unfold load_pulses.
  apply load_from_other; assumption.
Qed.

Lemma coll_upsert_skip id fields c1 c2 :
  (forall doc, In doc c1 -> matches_id id doc = false) ->
  coll_upsert id fields (c1 ++ c2) =
  (fst (coll_upsert id fields c2),
   c1 ++ snd (coll_upsert id fields c2)).
Proof.
  induction c1 as [ | doc c1 IH ]; intros Hskip.
  - cbn [app]. destruct (coll_upsert id fields c2). reflexivity.
  - cbn [app coll_upsert]. rewrite (Hskip doc) by (left; reflexivity).
    rewrite IH by (intros doc' Hin; apply Hskip; right; exact Hin).
    reflexivity.
Qed.

(** X12.  Loading a record whose identifier is already stored, and whose
    write the collection accepts, overwrites the stored document with the
    record's new fields, at the place where it stands, and counts nothing:
    the other documents and their order are as before. *)
Theorem reload_overwrites_in_place before r after r' st :
  Forall (fun x => storable x = true) (before ++ r :: after) ->
  NoDup (map raw_id (before ++ r :: after)) ->
  storable r' = true ->
  raw_id r' = raw_id r ->
  db st = map document (before ++ r :: after) ->
  load_pulses [r'] st =
  (Ret 0,
   State (net st) (map document (before ++ r' :: after))
     (trace st ++ [write_of r'])).
Proof.
  intros Hst Hnd Hr' Hid Hdb.
  apply storable_record in Hr'. destruct Hr' as [d' [-> [Hd' Hacc']]].
  pose proof (proj1 (Forall_forall _ _) Hst) as Hall.
  pose proof (Hall r ltac:(apply in_or_app; right; left; reflexivity)) as Hr.
  apply storable_record in Hr. destruct Hr as [d [-> _]].
  unfold load_pulses. rewrite load_from_record. cbv zeta.
  rewrite Hd', Hacc', Hdb, map_app. cbn [map].
  rewrite coll_upsert_skip.
  - cbn [coll_upsert]. rewrite matches_id_document.
    cbn [raw_id] in Hid. rewrite <- Hid, pyval_eqb_refl.
    cbn [fst snd load_from]. unfold ret, write_of.
    rewrite map_app. cbn [map raw_id]. reflexivity.
  - intros doc Hdoc. apply in_map_iff in Hdoc. destruct Hdoc as [x [<- Hx]].
    pose proof (Hall x ltac:(apply in_or_app; left; exact Hx)) as Hsx.
    apply storable_record in Hsx. destruct Hsx as [dx [-> _]].
    rewrite matches_id_document. apply pyval_eqb_neq.
    rewrite map_app in Hnd. cbn [map] in Hnd.
    pose proof (NoDup_app_disjoint _ _ Hnd (raw_id (PDict dx))
                  (in_map raw_id _ _ Hx)) as Hnot.
    intros Heq. apply Hnot. left. cbn [raw_id] in *. congruence.
Qed.

(** X13.  A record that is not a mapping stops the load with an
    [AttributeError]: what the records before it wrote stays written, the
    records after it are not looked at. *)
Theorem load_aborts_on_non_mapping before bad rest st :
  is_record bad = false ->
  transform_pulse bad = Raise AttributeError
  /\ load_pulses (before ++ bad :: rest) st =
     match load_pulses before st with
     | (Ret _, st1) => (Raise AttributeError, st1)
     | (Raise e, st1) => (Raise e, st1)
     end.
Proof.
  intros Hbad. split.
  - destruct bad; try reflexivity. discriminate.
  - unfold load_pulses. rewrite load_from_app.
    destruct (load_from before 0 st) as [[m | e] st1]; [ | reflexivity ].
    destruct bad; try reflexivity. discriminate.
Qed.

(** *** The driver *)

(** X14.  However a run ends, the last things it does are to close the
    client and to log that.  When a record of the first page is not a
    mapping, the run ends with the loader's [AttributeError]: the records
    before it stay in the collection, no total is logged, and the client is
    closed all the same. *)
Theorem run_closes_connection :
  (forall st,
      exists tr,
        trace (snd (run_etl st)) = tr ++ [EvClose; EvLog INFO MsgClosed])
  /\
  (forall st d w' before bad rest m st1,
      BASE_URL <> "" ->
      requests_get (PStr BASE_URL) (net st)
      = (Some (Response 200 (Decoded (PDict d))), w') ->
      dict_get "results" PNone d = PList (before ++ bad :: rest) ->
      is_record bad = false ->
      load_pulses before
        (State w' (db st)
           (trace st ++ [ EvLog INFO (MsgFetching 1 (PStr BASE_URL));
                          EvGet (PStr BASE_URL) ]))
      = (Ret m, st1) ->
      run_etl st =
      (Raise AttributeError,
       emit (EvLog INFO MsgClosed) (emit EvClose st1))).
Proof.
  split.
  - intros st. unfold run_etl, try_finally, bind, log, client_close, emit.
    destruct (for_pages GenStart 0 st) as [[total | e] st1];
      cbn [net db trace snd]; rewrite <- app_assoc;
      eexists; reflexivity.
  - intros st d w' before bad rest m st1 Hbase Hget Hres Hbad Hload.
    assert (Hurl : truthy (PStr BASE_URL) = true).
    { cbn [truthy]. apply negb_true_iff. apply String.eqb_neq. exact Hbase. }
    assert (Hpc : 0 < MAX_PAGES) by (unfold MAX_PAGES; lia).
    unfold run_etl, try_finally. unfold bind at 1.
    rewrite for_pages_step. cbn [gen_next].
    rewrite (extract_iteration_page _ _ _ d (before ++ bad :: rest) w'
               Hurl Hpc Hget Hres).
    change (0 + 1) with 1.
    unfold load_page. unfold bind at 1.
    unfold load_pulses in *. rewrite load_from_app, Hload.
    destruct bad; try discriminate Hbad; reflexivity.
Qed.

(** *** The transform *)

(** X15.  A field the raw record has is copied as it is, whatever its
    value: in particular a [tags] or [references] that is present but null
    stays null, the empty list standing in only for an absent key. *)
Theorem transform_copies_present_fields d out raw v :
  In (out, raw) normalized_shape ->
  lookup raw d = Some v ->
  exists transformed,
    transform_pulse (PDict d) = Ret transformed
    /\ lookup out transformed = Some v.
Proof.
  intros Hin Hraw.
  exists (document (PDict d)). split; [ reflexivity | ].
  cbn [document transform_pulse py_get rbind].
  cbn [normalized_shape In] in Hin.
  unfold dict_get.
  repeat (destruct Hin as [ Hin | Hin ];
          [ injection Hin as <- <-; rewrite Hraw; reflexivity | ]).
  destruct Hin.
Qed.

(** X16.  The document has the eight keys of the normalized shape, in that
    order, whatever the raw record holds; fields outside the eight are
    dropped, so two raw records that agree on the eight raw fields have the
    same document. *)
Theorem transform_has_fixed_shape :
  (forall d,
      exists transformed,
        transform_pulse (PDict d) = Ret transformed
        /\ map fst transformed = map fst normalized_shape)
  /\
  (forall d d',
      (forall raw, In raw (map snd normalized_shape) ->
                   lookup raw d = lookup raw d') ->
      transform_pulse (PDict d) = transform_pulse (PDict d')).
Proof.
  split.
  - intros d. eexists. split; reflexivity.
  - intros d d' Hsame.
    cbn [transform_pulse py_get rbind]. unfold dict_get.
    rewrite !Hsame by (cbn; auto 10). reflexivity.
Qed.

(** *** The run as extraction followed by loading *)

Lemma bind_run {A B} (m : M A) (k : A -> M B) st :
  bind m k st =
  match m st with
  | (Ret a, st') => k a st'
  | (Raise e, st') => (Raise e, st')
  end.
Proof. reflexivity. Qed.

Lemma bind_http_get {B} url (k : option response -> M B) st :
  bind (http_get url) k st =
  k (fst (requests_get url (net st)))
    (State (snd (requests_get url (net st))) (db st) (trace st ++ [EvGet url])).
Proof.
  unfold bind, http_get. destruct (requests_get url (net st)). reflexivity.
Qed.

Lemma bind_log {B} lvl msg (k : unit -> M B) st :
  bind (log lvl msg) k st = k tt (emit (EvLog lvl msg) st).
Proof. reflexivity. Qed.

(** What the fetcher returns and where it leaves the server depend on the
    server alone. *)
Lemma fetch_attempts_net url retries backoff_factor attempts :
  forall st st',
    net st = net st' ->
    fst (fetch_attempts url retries backoff_factor attempts st)
    = fst (fetch_attempts url retries backoff_factor attempts st')
    /\ net (snd (fetch_attempts url retries backoff_factor attempts st))
       = net (snd (fetch_attempts url retries backoff_factor attempts st')).
Proof.
  induction attempts as [ | attempt rest IH ]; intros st st' Hnet.
  - cbn. split; [ reflexivity | exact Hnet ].
  - cbn [fetch_attempts]. rewrite !bind_http_get.
    rewrite <- Hnet. destruct (requests_get url (net st)) as [o w'].
    cbn [fst snd].
    assert (Hback : forall msg s s',
               net s = net s' ->
               fst ((log WARNING msg ;;
                     sleep (backoff_factor * 2 ^ attempt) ;;
                     fetch_attempts url retries backoff_factor rest) s)
               = fst ((log WARNING msg ;;
                       sleep (backoff_factor * 2 ^ attempt) ;;
                       fetch_attempts url retries backoff_factor rest) s')
               /\ net (snd ((log WARNING msg ;;
                             sleep (backoff_factor * 2 ^ attempt) ;;
                             fetch_attempts url retries backoff_factor rest) s))
                  = net (snd ((log WARNING msg ;;
                               sleep (backoff_factor * 2 ^ attempt) ;;
                               fetch_attempts url retries backoff_factor rest)
                                s'))).
    { intros msg s s' Hs. unfold bind, log, sleep, emit. cbn [net db trace].
      destruct (sleep_error _).
      - split; [ reflexivity | exact Hs ].
      - apply IH. exact Hs. }
    destruct o as [ resp | ]; [ | apply Hback; reflexivity ].
    destruct (status_code resp =? 200).
    + destruct (json resp).
      * split; reflexivity.
      * apply Hback. reflexivity.
      * split; reflexivity.
    + destruct (status_code resp =? 429).
      * apply Hback. reflexivity.
      * split; reflexivity.
Qed.

Lemma extract_iteration_net url page_count st st' :
  net st = net st' ->
  fst (extract_iteration url page_count st)
  = fst (extract_iteration url page_count st')
  /\ net (snd (extract_iteration url page_count st))
     = net (snd (extract_iteration url page_count st')).
Proof.
  intros Hnet. unfold extract_iteration.
  destruct (truthy url && (page_count <? MAX_PAGES)).
  - rewrite !bind_log, !bind_run.
    unfold fetch_with_retries.
    pose proof (fetch_attempts_net url 3 2 (range 3)
                  (emit (EvLog INFO (MsgFetching (page_count + 1) url)) st)
                  (emit (EvLog INFO (MsgFetching (page_count + 1) url)) st')
                  Hnet) as [Hr Hn].
    destruct (fetch_attempts url 3 2 (range 3)
                (emit (EvLog INFO (MsgFetching (page_count + 1) url)) st))
      as [rf sf].
    destruct (fetch_attempts url 3 2 (range 3)
                (emit (EvLog INFO (MsgFetching (page_count + 1) url)) st'))
      as [rf' sf'].
    cbn [fst snd] in Hr, Hn. subst rf'.
    destruct rf as [ data | e ]; [ | split; [ reflexivity | exact Hn ] ].
    destruct data as [ | b | z | s | items | d ];
      try (unfold stopped, bind, log, ret, emit; cbn [net db trace fst snd];
           split; [ reflexivity | exact Hn ]).
    destruct (dict_get "results" PNone d);
      unfold stopped, bind, log, ret, emit; cbn [net db trace fst snd];
      split; solve [ reflexivity | exact Hn ].
  - unfold stopped, bind, log, ret, emit. cbn [net fst snd].
    split; [ reflexivity | exact Hnet ].
Qed.

Lemma gen_next_net g st st' :
  net st = net st' ->
  fst (gen_next g st) = fst (gen_next g st')
  /\ net (snd (gen_next g st)) = net (snd (gen_next g st')).
Proof.
  intros Hnet. destruct g as [ | d pc | ]; cbn [gen_next].
  - apply extract_iteration_net. exact Hnet.
  - apply extract_iteration_net. exact Hnet.
  - split; [ reflexivity | exact Hnet ].
Qed.

(** What a load returns and the collection it leaves depend on the
    collection alone. *)
Lemma load_from_db pulses :
  forall upserts st st',
    db st = db st' ->
    fst (load_from pulses upserts st) = fst (load_from pulses upserts st')
    /\ db (snd (load_from pulses upserts st))
       = db (snd (load_from pulses upserts st')).
Proof.
  induction pulses as [ | pulse rest IH ]; intros upserts st st' Hdb.
  - split; [ reflexivity | exact Hdb ].
  - destruct pulse as [ | b | z | s | items | d ];
      try (split; [ reflexivity | exact Hdb ]).
    rewrite !load_from_record. cbv zeta.
    destruct (truthy _).
    + destruct (write_error _ _); [ split; [ reflexivity | exact Hdb ] | ].
      rewrite <- Hdb. destruct (coll_upsert _ _ (db st)) as [u c].
      destruct u; apply IH; reflexivity.
    + apply IH. exact Hdb.
Qed.

Lemma load_page_db pulses total_upserts st st' :
  db st = db st' ->
  fst (load_page pulses total_upserts st)
  = fst (load_page pulses total_upserts st')
  /\ db (snd (load_page pulses total_upserts st))
     = db (snd (load_page pulses total_upserts st')).
Proof.
  intros Hdb. unfold load_page, load_pulses. rewrite !bind_run.
  pose proof (load_from_db pulses 0 st st' Hdb) as [Hr Hd].
  destruct (load_from pulses 0 st) as [r s].
  destruct (load_from pulses 0 st') as [r' s'].
  cbn [fst snd] in Hr, Hd. subst r'.
  destruct r as [ upserts | e ]; [ | split; [ reflexivity | exact Hd ] ].
  unfold bind, log, ret, emit. cbn [db fst snd].
  split; [ reflexivity | exact Hd ].
Qed.

Lemma load_page_net pulses total_upserts st :
  net (snd (load_page pulses total_upserts st)) = net st.
Proof.
  unfold load_page, load_pulses. unfold bind at 1.
  pose proof (load_from_net pulses 0 st) as Hn.
  destruct (load_from pulses 0 st) as [[upserts | e] s]; cbn [snd] in *;
    [ | exact Hn ].
  unfold bind, log, ret, emit. cbn [net snd]. exact Hn.
Qed.

Lemma for_pages_as_load_all n :
  forall g total_upserts st sc sl0 pages se t sl,
    (pages_left g <= n)%nat ->
    net sc = net st ->
    db sl0 = db st ->
    collect_pages g sc = ((pages, None), se) ->
    load_all pages total_upserts sl0 = (Ret t, sl) ->
    fst (for_pages g total_upserts st) = Ret t
    /\ db (snd (for_pages g total_upserts st)) = db sl
    /\ net (snd (for_pages g total_upserts st)) = net se.
Proof.
  induction n as [ | n IH ];
    intros g total st sc sl0 pages se t sl Hn Hnet Hdb Hcollect Hload;
    rewrite collect_pages_step in Hcollect; rewrite for_pages_step;
    pose proof (gen_next_net g sc st Hnet) as [Hr Hnn];
    destruct (gen_next g sc) as [rc sc1] eqn:Hgc;
    destruct (gen_next g st) as [r st1] eqn:Hgs;
    cbn [fst snd] in Hr, Hnn; subst rc;
    pose proof (gen_next_db _ _ _ _ Hgs) as Hdb1;
    destruct r as [[[pulses | ] g'] | e];
    try (destruct (collect_pages g' sc1) as [[pages' e'] se'];
         discriminate Hcollect);
    try discriminate Hcollect.
  - pose proof (gen_next_yield_decreases _ _ _ _ _ Hgs). lia.
  - injection Hcollect as <- <-. cbn in Hload. unfold ret in Hload.
    injection Hload as <- <-. cbn [fst snd].
    split; [ reflexivity | ]. split; [ congruence | congruence ].
  - pose proof (gen_next_yield_decreases _ _ _ _ _ Hgs) as Hdec.
    destruct (collect_pages g' sc1) as [[pages' e'] se'] eqn:Hc'.
    injection Hcollect as <- -> <-.
    cbn [load_all] in Hload. unfold bind at 1 in Hload.
    destruct (load_page pulses total sl0) as [[total' | e] sl1] eqn:Hl0;
      [ | discriminate Hload ].
    pose proof (load_page_db pulses total st1 sl0 ltac:(congruence))
      as [Hlr Hld].
    pose proof (load_page_net pulses total st1) as Hln.
    rewrite Hl0 in Hlr, Hld.
    destruct (load_page pulses total st1) as [r2 st2].
    cbn [fst snd] in Hlr, Hld, Hln. subst r2.
    apply (IH g' total' st2 sc1 sl1 pages' se' t sl);
      [ lia | congruence | congruence | exact Hc' | exact Hload ].
  - injection Hcollect as <- <-. cbn in Hload. unfold ret in Hload.
    injection Hload as <- <-. cbn [fst snd].
    split; [ reflexivity | ]. split; [ congruence | congruence ].
Qed.

(** X17.  A run is extraction followed by loading.  When iterating the
    generator alone ends normally with some pages, and loading those pages
    in order into the run's collection returns a total, then the run's loop
    returns that total and leaves that collection, with the server where
    the extraction left it: that the run loads each page before it fetches
    the next changes neither. *)
Theorem run_is_extract_then_load st pages se t sl :
  extract_pulses st = ((pages, None), se) ->
  load_all pages 0 st = (Ret t, sl) ->
  fst (for_pages GenStart 0 st) = Ret t
  /\ db (snd (for_pages GenStart 0 st)) = db sl
  /\ net (snd (for_pages GenStart 0 st)) = net se
  /\ fst (run_etl st) = Ret tt
  /\ db (snd (run_etl st)) = db sl.
Proof.
  intros Hextract Hload. unfold extract_pulses in Hextract.
  pose proof (for_pages_as_load_all (pages_left GenStart) GenStart 0 st st st
                pages se t sl (Nat.le_refl _) eq_refl eq_refl Hextract Hload)
    as [Hr [Hd Hn]].
  split; [ exact Hr | ]. split; [ exact Hd | ]. split; [ exact Hn | ].
  unfold run_etl, try_finally, bind, log, client_close, emit.
  destruct (for_pages GenStart 0 st) as [r st1]. cbn [fst snd] in *.
  subst r. cbn [net db trace fst snd]. split; [ reflexivity | exact Hd ].
Qed.

End Connector.

(** ** The properties at concrete inputs *)



(** The record [{"id": "p1", "name": "X"}] has a non-null identifier, and
    the transform applied twice differs from the transform applied once. *)
Lemma transform_not_idempotent :
  raw_id example_record <> PNone
  /\ transform_pulse example_record = Ret example_document
  /\ transform_twice example_record
     = Ret (("_id", PNone) :: tl example_document)
  /\ transform_twice example_record <> transform_pulse example_record.
Proof.
  split; [ discriminate | ]. split; [ reflexivity | ].
  split; [ reflexivity | discriminate ].
Qed.

(** One page of one record whose identifier is the empty string: not null,
    unique, and yet the load counts [0] new inserts, not [1 * 1]. *)
Lemma load_empty_string_id_counts_nothing :
  let pages := [[PDict [("id", PStr "")]]] in
  List.length pages = 1%nat
  /\ Forall (fun p => List.length p = 1%nat) pages
  /\ Forall (fun r => is_record r = true /\ raw_id r <> PNone)
       (List.concat pages)
  /\ NoDup (map raw_id (List.concat pages))
  /\ load_all script pages 0 (fresh [])
     = (Ret 0, State [] [] [EvLog WARNING MsgSkipping;
                            EvLog INFO (MsgUpserted 0)])
  /\ Ret (A := Z) 0 <> Ret (Z.of_nat 1 * Z.of_nat 1).
Proof.
  cbv zeta. split; [ reflexivity | ].
  split; [ repeat constructor | ].
  split; [ repeat constructor; discriminate | ].
  split; [ repeat constructor; intros [] | ].
  split; [ reflexivity | discriminate ].
Qed.

Lemma load_twice_upserts_once_witness :
  exists st1 st2,
    load_all script sample_pages 0 (fresh [])
    = (Ret (Z.of_nat 2 * Z.of_nat 2), st1)
    /\ db st1 = map document (List.concat sample_pages)
    /\ load_all script sample_pages 0 st1 = (Ret 0, st2)
    /\ db st2 = db st1
    /\ updates (trace st2) =
       updates (trace st1) ++ map write_of (List.concat sample_pages).
Proof.
  apply (load_twice_upserts_once script sample_pages 2 2 (fresh [])).
  - reflexivity.
  - repeat constructor.
  - repeat constructor.
  - repeat constructor; simpl; intuition discriminate.
  - reflexivity.
Defined.

Lemma pagination_stops_at_max_pages_witness :
  exists pages st',
    extract_pulses unit (always (Response 200 (Decoded endless_page)))
      "http://x" (fresh tt)
    = ((pages, None), st')
    /\ Z.of_nat (List.length pages) = MAX_PAGES.
Proof.
  apply (proj2 (pagination_stops_at_max_pages unit
                  (always (Response 200 (Decoded endless_page)))
                  "http://x")).
  - discriminate.
  - intros url w. exists [("results", PList [example_record]);
                          ("next", PStr "http://next")].
    exists [example_record].
    split; [ reflexivity | ]. split; reflexivity.
Defined.

Lemma load_skips_missing_id_witness :
  same_outcome script
    (load_pulses script
       ([example_record] ++ PDict [("name", PStr "no id")]
          :: [PDict [("id", PStr "p2")]])
       (fresh []))
    (load_pulses script
       ([example_record] ++ [PDict [("id", PStr "p2")]])
       (fresh [])).
Proof.
  apply (proj2 (load_skips_missing_id script [("name", PStr "no id")]
                  (or_introl eq_refl))).
Defined.

Lemma missing_results_stops_pagination_witness :
  for_pages script play "http://x" GenStart 0
    (fresh [ok page_without_results])
  = (Ret 0,
     State [] []
       [ EvLog INFO (MsgFetching 1 (PStr "http://x"));
         EvGet (PStr "http://x");
         EvLog ERROR MsgResultsMissing;
         EvLog INFO (MsgStopped 0) ]).
Proof.
  apply (missing_results_stops_pagination script play "http://x"
           GenStart (PStr "http://x") 0 (fresh [ok page_without_results])
           [("count", PInt 0); ("next", PStr "http://next")]
           (State [] []
              [ EvLog INFO (MsgFetching 1 (PStr "http://x"));
                EvGet (PStr "http://x") ])
           0);
    solve [ reflexivity | unfold MAX_PAGES; lia ].
Defined.



Lemma example_page_run_witness :
  run_etl script play "http://x" (fresh [ok example_page])
  = (Ret tt,
     State [] [example_document]
       ([] ++
        [ EvLog INFO (MsgFetching 1 (PStr "http://x"));
          EvGet (PStr "http://x");
          EvUpdateOne (PStr "p1") example_document;
          EvLog INFO (MsgUpserted 1);
          EvLog INFO (MsgStopped 1);
          EvLog INFO (MsgFinished 1);
          EvClose;
          EvLog INFO MsgClosed ]))
  /\
  exists transformed,
    transform_pulse example_record = Ret transformed
    /\ lookup "tags" transformed = Some (PList []).
Proof.
  split.
  - apply (proj1 (example_page_run script play "http://x")
             (fresh [ok example_page]) []).
    + discriminate.
    + reflexivity.
    + reflexivity.
  - apply (proj2 (example_page_run script play "http://x")
             [("id", PStr "p1"); ("name", PStr "X")] "tags" "tags").
    + simpl. auto 10.
    + reflexivity.
Defined.



Lemma load_skips_falsy_id_witness :
  same_outcome script
    (load_pulses script
       ([example_record] ++ PDict [("id", PInt 0)]
          :: [PDict [("id", PStr "p2")]])
       (fresh []))
    (load_pulses script
       ([example_record] ++ [PDict [("id", PStr "p2")]])
       (fresh []))
  /\ In (PInt 0) [PNone; PBool false; PInt 0; PStr ""; PList []; PDict []].
Proof.
  destruct (load_skips_falsy_id script [("id", PInt 0)] (PInt 0)
              eq_refl eq_refl) as [_ [Hbatch Hin]].
  split; [ apply Hbatch | exact Hin ].
Defined.

(** ** The further properties at concrete inputs *)




Lemma fetch_stays_within_budget_witness :
  slept (trace (snd (fetch_with_retries script play (PStr "u") 3 2
                       (fresh [status 429; status 429; status 429]))))
  <= slept [] + backoff_total 2 (range 3).
Proof.
  apply (proj2 (fetch_stays_within_budget script play (PStr "u") 3 2
                  (fresh [status 429; status 429; status 429]))).
  lia.
Defined.

Lemma non_mapping_payload_stops_pagination_witness :
  for_pages script play "http://x" GenStart 0
    (fresh [ok (PList [example_record])])
  = (Ret 0,
     State [] []
       [ EvLog INFO (MsgFetching 1 (PStr "http://x"));
         EvGet (PStr "http://x");
         EvLog ERROR MsgInvalidStructure;
         EvLog INFO (MsgStopped 0) ]).
Proof.
  apply (non_mapping_payload_stops_pagination script play "http://x"
           GenStart (PStr "http://x") 0
           (fresh [ok (PList [example_record])])
           (PList [example_record])
           (State [] []
              [ EvLog INFO (MsgFetching 1 (PStr "http://x"));
                EvGet (PStr "http://x") ])
           0);
    solve [ reflexivity | unfold MAX_PAGES; lia ].
Defined.

Lemma empty_page_continues_witness :
  for_pages script play "http://x" GenStart 0
    (fresh [ok (PDict empty_page_fields); ok example_page])
  = for_pages script play "http://x" (GenSuspended empty_page_fields 0) 0
      (State [ok example_page] []
         ([] ++ [ EvLog INFO (MsgFetching (0 + 1) (PStr "http://x"));
                  EvGet (PStr "http://x");
                  EvLog INFO (MsgUpserted 0) ])).
Proof.
  apply (empty_page_continues script play "http://x" GenStart
           (PStr "http://x") 0
           (fresh [ok (PDict empty_page_fields); ok example_page])
           empty_page_fields [ok example_page] 0);
    solve [ reflexivity | unfold MAX_PAGES; lia ].
Defined.

Lemma pagination_follows_cursor_witness :
  gen_next script play "http://x"
    (GenSuspended [("results", PList []); ("next", PStr "")] 0) (fresh [])
  = (Ret (None, GenDone), emit script (EvLog INFO (MsgStopped (0 + 1))) (fresh []))
  /\
  exists more,
    trace (snd (gen_next script play "http://x"
                  (GenSuspended empty_page_fields 0)
                  (fresh [status 500])))
    = [] ++ EvLog INFO (MsgFetching (0 + 1 + 1) (PStr "http://next"))
         :: EvGet (PStr "http://next") :: more.
Proof.
  split.
  - apply (proj1 (pagination_follows_cursor script play "http://x"
                    [("results", PList []); ("next", PStr "")] 0 (fresh []))).
    reflexivity.
  - apply (proj2 (pagination_follows_cursor script play "http://x"
                    empty_page_fields 0 (fresh [status 500]))).
    + reflexivity.
    + unfold MAX_PAGES. lia.
Defined.

Lemma load_count_is_collection_growth_witness :
  0 <= 1 <= Z.of_nat (List.length [example_record; PDict [("id", PStr "")];
                                   example_record])
  /\ Z.of_nat (List.length
                 (db (snd (load_pulses script
                             [example_record; PDict [("id", PStr "")];
                              example_record] (fresh [])))))
     = Z.of_nat (List.length (db (fresh (W := script) []))) + 1.
Proof.
  apply (load_count_is_collection_growth script
           [example_record; PDict [("id", PStr "")]; example_record]
           (fresh [])).
  reflexivity.
Defined.

Lemma load_leaves_other_documents_witness :
  In [("_id", PStr "z"); ("note", PStr "kept")]
    (db (snd (load_pulses script [example_record; PDict [("id", PStr "b")]]
                (State [] [[("_id", PStr "z"); ("note", PStr "kept")];
                           example_document] [])))).
Proof.
  apply (load_leaves_other_documents script
           [example_record; PDict [("id", PStr "b")]]
           [("_id", PStr "z"); ("note", PStr "kept")]).
  - left. reflexivity.
  - intros r [ <- | [ <- | [] ] ]; reflexivity.
Defined.

Lemma reload_overwrites_in_place_witness :
  load_pulses script [PDict [("id", PStr "b"); ("name", PStr "renamed")]]
    (State [] (map document ([PDict [("id", PStr "a")]]
                             ++ PDict [("id", PStr "b"); ("name", PStr "B")]
                             :: [PDict [("id", PStr "c")]])) [])
  = (Ret 0,
     State [] (map document ([PDict [("id", PStr "a")]]
                             ++ PDict [("id", PStr "b"); ("name", PStr "renamed")]
                             :: [PDict [("id", PStr "c")]]))
       ([] ++ [write_of (PDict [("id", PStr "b"); ("name", PStr "renamed")])])).
Proof.
  apply (reload_overwrites_in_place script
           [PDict [("id", PStr "a")]]
           (PDict [("id", PStr "b"); ("name", PStr "B")])
           [PDict [("id", PStr "c")]]
           (PDict [("id", PStr "b"); ("name", PStr "renamed")])
           (State [] (map document ([PDict [("id", PStr "a")]]
                             ++ PDict [("id", PStr "b"); ("name", PStr "B")]
                             :: [PDict [("id", PStr "c")]])) [])).
  - repeat constructor.
  - repeat constructor; simpl; intuition discriminate.
  - reflexivity.
  - reflexivity.
  - reflexivity.
Defined.

Lemma load_aborts_on_non_mapping_witness :
  transform_pulse (PStr "oops") = Raise AttributeError
  /\ load_pulses script
       ([example_record] ++ PStr "oops" :: [PDict [("id", PStr "p2")]])
       (fresh [])
     = match load_pulses script [example_record] (fresh []) with
       | (Ret _, st1) => (Raise AttributeError, st1)
       | (Raise e, st1) => (Raise e, st1)
       end.
Proof.
  apply (load_aborts_on_non_mapping script [example_record] (PStr "oops")
           [PDict [("id", PStr "p2")]] (fresh [])).
  reflexivity.
Defined.

Lemma run_closes_connection_witness :
  run_etl script play "http://x" (fresh [ok (PDict broken_page_fields)])
  = (Raise AttributeError,
     State [] [example_document]
       [ EvLog INFO (MsgFetching 1 (PStr "http://x"));
         EvGet (PStr "http://x");
         EvUpdateOne (PStr "p1") example_document;
         EvClose;
         EvLog INFO MsgClosed ]).
Proof.
  apply (proj2 (run_closes_connection script play "http://x")
           (fresh [ok (PDict broken_page_fields)])
           broken_page_fields [] [example_record] (PStr "oops")
           [PDict [("id", PStr "p2")]] 1
           (State [] [example_document]
              [ EvLog INFO (MsgFetching 1 (PStr "http://x"));
                EvGet (PStr "http://x");
                EvUpdateOne (PStr "p1") example_document ])).
  - discriminate.
  - reflexivity.
  - reflexivity.
  - reflexivity.
  - reflexivity.
Defined.

Lemma transform_copies_present_fields_witness :
  exists transformed,
    transform_pulse (PDict [("id", PStr "p1"); ("tags", PNone)])
    = Ret transformed
    /\ lookup "tags" transformed = Some PNone.
Proof.
  apply (transform_copies_present_fields
           [("id", PStr "p1"); ("tags", PNone)] "tags" "tags" PNone).
  - simpl. auto 10.
  - reflexivity.
Defined.

Lemma transform_has_fixed_shape_witness :
  transform_pulse (PDict [("id", PStr "p1"); ("indicators", PList [PInt 1])])
  = transform_pulse (PDict [("id", PStr "p1")]).
Proof.
  apply (proj2 transform_has_fixed_shape).
  intros raw Hraw. simpl in Hraw.
  repeat (destruct Hraw as [ <- | Hraw ]; [ reflexivity | ]).
  destruct Hraw.
Defined.

Lemma run_is_extract_then_load_witness :
  let st := fresh [ok first_page; ok last_page] in
  let pages :=
    [ [ PDict [("id", PStr "a")];
        PDict [("id", PStr "b"); ("name", PStr "B")] ];
      [ PDict [("id", PStr "a"); ("name", PStr "A2")] ] ] in
  fst (for_pages script play "http://x" GenStart 0 st) = Ret 2
  /\ db (snd (for_pages script play "http://x" GenStart 0 st))
     = db (snd (load_all script pages 0 st))
  /\ net (snd (for_pages script play "http://x" GenStart 0 st))
     = net (snd (extract_pulses script play "http://x" st))
  /\ fst (run_etl script play "http://x" st) = Ret tt
  /\ db (snd (run_etl script play "http://x" st))
     = db (snd (load_all script pages 0 st)).
Proof.
  cbv zeta.
  apply (run_is_extract_then_load script play "http://x"
           (fresh [ok first_page; ok last_page])
           [ [ PDict [("id", PStr "a")];
               PDict [("id", PStr "b"); ("name", PStr "B")] ];
             [ PDict [("id", PStr "a"); ("name", PStr "A2")] ] ]
           (snd (extract_pulses script play "http://x"
                   (fresh [ok first_page; ok last_page])))
           2
           (snd (load_all script
                   [ [ PDict [("id", PStr "a")];
                       PDict [("id", PStr "b"); ("name", PStr "B")] ];
                     [ PDict [("id", PStr "a"); ("name", PStr "A2")] ] ]
                   0 (fresh [ok first_page; ok last_page])))).
  - vm_compute. reflexivity.
  - vm_compute. reflexivity.
Defined.
